(** * review-queue: the username combobox of [assets/queue.js]

    A shallow embedding of the page script: its three globals, the part of
    the document it touches, the socket it writes to, and every listener it
    installs.  Listeners are state transformers that may end by a JavaScript
    exception; the state reached at the throw is kept, as in the browser. *)

From Stdlib Require Import ZArith Lia.
From stdpp Require Import base list strings pretty.

Open Scope Z_scope.
Open Scope string_scope.
Open Scope list_scope.

(** ** JavaScript values *)

(** What [JSON.parse] can build, plus [undefined], which is what reading a
    missing property gives.  Numbers are the integer-valued ones: [JNum n]
    is the number [JSON.parse] makes of the integer [n], the double nearest
    to it.  Strings hold their text in UTF-8. *)
#[warnings="-register-all"]
Inductive js_value :=
| JUndefined
| JNull
| JBool (b : bool)
| JNum (n : Z)
| JStr (s : string)
| JArr (items : list js_value)
| JObj (props : list (string * js_value)).

Inductive exn := SyntaxError | TypeError.

(** How an evaluation ends: with a value or with a thrown exception. *)
Inductive completion (A : Type) :=
| Normal (a : A)
| Throw (e : exn).
Arguments Normal {A} a.
Arguments Throw {A} e.

(** Own property of an object built by [JSON.parse]. *)
Fixpoint own_prop (k : string) (props : list (string * js_value)) : option js_value :=
  match props with
  | [] => None
  | (k', v) :: rest => if String.eqb k k' then Some v else own_prop k rest
  end.

(** [v[k]] for the property names the script reads ("key", "main_contents",
    "new_name", "suggestions", "avatar_url", "name"): none of them is
    inherited from a prototype, so only objects can have them; reading a
    property of [undefined] or [null] is a TypeError. *)
Definition get_field (v : js_value) (k : string) : completion js_value :=
  match v with
  | JUndefined | JNull => Throw TypeError
  | JObj props => Normal (default JUndefined (own_prop k props))
  | _ => Normal JUndefined
  end.

(** A byte [10xxxxxx] continues the character begun before it; a byte
    [11110xxx] begins a character beyond the basic plane, which a
    JavaScript string holds as two code units. *)
Definition continues (c : Ascii.ascii) : bool :=
  match c with
  | Ascii.Ascii _ _ _ _ _ _ false true => true
  | _ => false
  end.

Definition code_units (c : Ascii.ascii) : nat :=
  match c with
  | Ascii.Ascii _ _ _ _ _ _ false true => 0
  | Ascii.Ascii _ _ _ false true true true true => 2
  | _ => 1
  end.

(** [s.length], in code units. *)
Fixpoint utf16_length (s : string) : nat :=
  match s with
  | EmptyString => 0
  | String c rest => code_units c + utf16_length rest
  end.

(** Whether [s] begins in the middle of a character. *)
Definition begins_inside (s : string) : bool :=
  match s with
  | String c _ => continues c
  | EmptyString => false
  end.

(** The characters of [s], one string each, as a [for ... of] loop over a
    string yields them. *)
Fixpoint code_points (s : string) : list string :=
  match s with
  | EmptyString => []
  | String c rest =>
      match code_points rest with
      | following :: others =>
          if begins_inside rest then String c following :: others
          else String c EmptyString :: following :: others
      | [] => [String c EmptyString]
      end
  end.

(** [v.length] *)
Definition js_length (v : js_value) : completion js_value :=
  match v with
  | JUndefined | JNull => Throw TypeError
  | JArr items => Normal (JNum (Z.of_nat (length items)))
  | JStr s => Normal (JNum (Z.of_nat (utf16_length s)))
  | JObj props => Normal (default JUndefined (own_prop "length" props))
  | _ => Normal JUndefined
  end.

(** The values a [for (const i of v)] loop runs over; numbers, booleans and
    plain objects are not iterable. *)
Definition js_iterate (v : js_value) : completion (list js_value) :=
  match v with
  | JArr items => Normal items
  | JStr s => Normal (JStr <$> code_points s)
  | _ => Throw TypeError
  end.

(** The double nearest to the natural number [n], ties going to the even
    mantissa; [None] when [n] is beyond the doubles, where [JSON.parse]
    gives [Infinity]. *)
Definition nearest_double (n : Z) : option Z :=
  let bits := Z.log2 n + 1 in
  if (bits <=? 53)%Z then Some n
  else
    let shift := bits - 53 in
    let q := Z.shiftr n shift in
    let r := n - Z.shiftl q shift in
    let half := Z.shiftl 1 (shift - 1) in
    let q' := if (half <? r)%Z || ((r =? half)%Z && Z.odd q) then q + 1 else q in
    let d := Z.shiftl q' shift in
    if (d <? 2 ^ 1024)%Z then Some d else None.

(** The decimal of fewest digits that reads back as the double [d], with
    the power of ten it is a multiple of: of the two multiples of a power of
    ten next to [d], the nearer one (the even one when both are as near),
    for the largest power that has one reading back as [d]. *)
Definition shortest_decimal (d : Z) : Z * Z :=
  let try (e : nat) : option (Z * Z) :=
    let u := 10 ^ Z.of_nat e in
    let lo := d / u * u in
    let hi := lo + u in
    let reads (x : Z) := (0 <? x)%Z && bool_decide (nearest_double x = Some d) in
    match reads lo, reads hi with
    | true, true =>
        if (d - lo <? hi - d)%Z then Some (lo, u)
        else if (hi - d <? d - lo)%Z then Some (hi, u)
        else if Z.even (lo / u) then Some (lo, u) else Some (hi, u)
    | true, false => Some (lo, u)
    | false, true => Some (hi, u)
    | false, false => None
    end in
  default (d, 1) (list_find is_Some (try <$> rev (seq 0 310)) ≫= snd).

(** Number::toString of a natural number: plain digits up to twenty-one
    places, exponent notation beyond. *)
Definition natural_to_string (n : Z) : string :=
  match nearest_double n with
  | None => "Infinity"
  | Some d =>
      let '(c, u) := shortest_decimal d in
      let places := Z.of_nat (String.length (pretty c)) in
      if (places <=? 21)%Z then pretty c
      else
        match pretty (c / u) with
        | String first EmptyString => String first ("e+" +:+ pretty (places - 1))
        | String first more => String first ("." +:+ more +:+ "e+" +:+ pretty (places - 1))
        | EmptyString => ""
        end
  end.

Definition Number_toString (n : Z) : string :=
  if (n <? 0)%Z then "-" +:+ natural_to_string (- n) else natural_to_string n.

(** ECMAScript ToString, as used by template literals and by the setters of
    string-valued DOM attributes.  A parsed object that carries a property
    named "toString" has no callable conversion left and raises TypeError. *)
Fixpoint ToString (v : js_value) : completion string :=
  match v with
  | JUndefined => Normal "undefined"
  | JNull => Normal "null"
  | JBool true => Normal "true"
  | JBool false => Normal "false"
  | JNum n => Normal (Number_toString n)
  | JStr s => Normal s
  | JArr items =>
      let item (x : js_value) :=
        match x with
        | JUndefined | JNull => Normal ""
        | _ => ToString x
        end in
      (fix join (l : list js_value) : completion string :=
         match l with
         | [] => Normal ""
         | [x] => item x
         | x :: rest =>
             match item x with
             | Throw e => Throw e
             | Normal s =>
                 match join rest with
                 | Throw e => Throw e
                 | Normal t => Normal (s +:+ "," +:+ t)
                 end
             end
         end) items
  | JObj props =>
      match own_prop "toString" props with
      | Some _ => Throw TypeError
      | None => Normal "[object Object]"
      end
  end.

(** Conversion done by the setters declared [LegacyNullToEmptyString]
    ([value], [innerText], [innerHTML], [outerHTML]). *)
Definition to_DOMString (v : js_value) : completion string :=
  match v with
  | JNull => Normal ""
  | _ => ToString v
  end.

(** ** The page *)

(** [document.activeElement], as far as the script tells elements apart or
    removes them: the body, the combobox's input, the element [#main], an
    element inside [#main], or any other element. *)
Inductive focus :=
| OnBody
| OnUsernameInput
| OnOther (editable : bool)
| OnMain
| InMain (editable : bool).

Inductive li_child :=
| Img (classes : list string) (src : string)
| Span (innerText : string).

(** An [<li>] made by [apply_username_suggestions].  [on_click] holds the
    suggestion captured by its click listener, once the listener is added. *)
Record li_elem := {
  role : option string;
  ariaSelected : option string;
  classList : list string;
  children : list li_child;
  on_click : option js_value;
}.

(** Objects handed to [JSON.stringify] and then to [socket.send]. *)
Inductive outbound :=
| OutUsernameSelect (selected_name : js_value)
| OutUsernameSuggestions (current_value : string)
| OutResetUsername.

Inductive log_entry := Log (text : string) (args : list js_value).

(** The script's globals, the document and the outside world.  Elements
    live in [elems] and are referred to by position, so that
    [available_options] and the popup share them.  [main_exists] says
    whether [document.getElementById("main")] finds an element, and
    [main_html] is the markup last written in its place or into it.
    [fragment_has_main] stands for the browser's HTML parser, as far as the
    script depends on it: whether a fragment, once parsed, holds an element
    with the id "main".  The form, the input, the popup and the refresh
    line are outside [#main] and stay in the document, and no fragment
    brings an element with one of their ids. *)
Record page := {
  current_option : option Z;
  available_options : list nat;
  old_username : option string;
  elems : list li_elem;
  input_value : string;
  input_selected : bool;
  active : focus;
  popup_display : string;
  popup_children : list nat;
  main_html : string;
  refresh_text : string;
  sent : list outbound;
  console : list log_entry;
  main_exists : bool;
  fragment_has_main : string → bool;
}.

Definition with_current_option (v : option Z) (p : page) : page :=
  {| current_option := v; available_options := available_options p;
     old_username := old_username p; elems := elems p;
     input_value := input_value p; input_selected := input_selected p;
     active := active p; popup_display := popup_display p;
     popup_children := popup_children p; main_html := main_html p;
     refresh_text := refresh_text p; sent := sent p; console := console p;
     main_exists := main_exists p; fragment_has_main := fragment_has_main p |}.

Definition with_available_options (v : list nat) (p : page) : page :=
  {| current_option := current_option p; available_options := v;
     old_username := old_username p; elems := elems p;
     input_value := input_value p; input_selected := input_selected p;
     active := active p; popup_display := popup_display p;
     popup_children := popup_children p; main_html := main_html p;
     refresh_text := refresh_text p; sent := sent p; console := console p;
     main_exists := main_exists p; fragment_has_main := fragment_has_main p |}.

Definition with_old_username (v : option string) (p : page) : page :=
  {| current_option := current_option p; available_options := available_options p;
     old_username := v; elems := elems p;
     input_value := input_value p; input_selected := input_selected p;
     active := active p; popup_display := popup_display p;
     popup_children := popup_children p; main_html := main_html p;
     refresh_text := refresh_text p; sent := sent p; console := console p;
     main_exists := main_exists p; fragment_has_main := fragment_has_main p |}.

Definition with_elems (v : list li_elem) (p : page) : page :=
  {| current_option := current_option p; available_options := available_options p;
     old_username := old_username p; elems := v;
     input_value := input_value p; input_selected := input_selected p;
     active := active p; popup_display := popup_display p;
     popup_children := popup_children p; main_html := main_html p;
     refresh_text := refresh_text p; sent := sent p; console := console p;
     main_exists := main_exists p; fragment_has_main := fragment_has_main p |}.

Definition with_input_value (v : string) (p : page) : page :=
  {| current_option := current_option p; available_options := available_options p;
     old_username := old_username p; elems := elems p;
     input_value := v; input_selected := input_selected p;
     active := active p; popup_display := popup_display p;
     popup_children := popup_children p; main_html := main_html p;
     refresh_text := refresh_text p; sent := sent p; console := console p;
     main_exists := main_exists p; fragment_has_main := fragment_has_main p |}.

Definition with_input_selected (v : bool) (p : page) : page :=
  {| current_option := current_option p; available_options := available_options p;
     old_username := old_username p; elems := elems p;
     input_value := input_value p; input_selected := v;
     active := active p; popup_display := popup_display p;
     popup_children := popup_children p; main_html := main_html p;
     refresh_text := refresh_text p; sent := sent p; console := console p;
     main_exists := main_exists p; fragment_has_main := fragment_has_main p |}.

Definition with_active (v : focus) (p : page) : page :=
  {| current_option := current_option p; available_options := available_options p;
     old_username := old_username p; elems := elems p;
     input_value := input_value p; input_selected := input_selected p;
     active := v; popup_display := popup_display p;
     popup_children := popup_children p; main_html := main_html p;
     refresh_text := refresh_text p; sent := sent p; console := console p;
     main_exists := main_exists p; fragment_has_main := fragment_has_main p |}.

Definition with_popup_display (v : string) (p : page) : page :=
  {| current_option := current_option p; available_options := available_options p;
     old_username := old_username p; elems := elems p;
     input_value := input_value p; input_selected := input_selected p;
     active := active p; popup_display := v;
     popup_children := popup_children p; main_html := main_html p;
     refresh_text := refresh_text p; sent := sent p; console := console p;
     main_exists := main_exists p; fragment_has_main := fragment_has_main p |}.

Definition with_popup_children (v : list nat) (p : page) : page :=
  {| current_option := current_option p; available_options := available_options p;
     old_username := old_username p; elems := elems p;
     input_value := input_value p; input_selected := input_selected p;
     active := active p; popup_display := popup_display p;
     popup_children := v; main_html := main_html p;
     refresh_text := refresh_text p; sent := sent p; console := console p;
     main_exists := main_exists p; fragment_has_main := fragment_has_main p |}.

Definition with_main_html (v : string) (p : page) : page :=
  {| current_option := current_option p; available_options := available_options p;
     old_username := old_username p; elems := elems p;
     input_value := input_value p; input_selected := input_selected p;
     active := active p; popup_display := popup_display p;
     popup_children := popup_children p; main_html := v;
     refresh_text := refresh_text p; sent := sent p; console := console p;
     main_exists := main_exists p; fragment_has_main := fragment_has_main p |}.

Definition with_refresh_text (v : string) (p : page) : page :=
  {| current_option := current_option p; available_options := available_options p;
     old_username := old_username p; elems := elems p;
     input_value := input_value p; input_selected := input_selected p;
     active := active p; popup_display := popup_display p;
     popup_children := popup_children p; main_html := main_html p;
     refresh_text := v; sent := sent p; console := console p;
     main_exists := main_exists p; fragment_has_main := fragment_has_main p |}.

Definition with_sent (v : list outbound) (p : page) : page :=
  {| current_option := current_option p; available_options := available_options p;
     old_username := old_username p; elems := elems p;
     input_value := input_value p; input_selected := input_selected p;
     active := active p; popup_display := popup_display p;
     popup_children := popup_children p; main_html := main_html p;
     refresh_text := refresh_text p; sent := v; console := console p;
     main_exists := main_exists p; fragment_has_main := fragment_has_main p |}.

Definition with_console (v : list log_entry) (p : page) : page :=
  {| current_option := current_option p; available_options := available_options p;
     old_username := old_username p; elems := elems p;
     input_value := input_value p; input_selected := input_selected p;
     active := active p; popup_display := popup_display p;
     popup_children := popup_children p; main_html := main_html p;
     refresh_text := refresh_text p; sent := sent p; console := v;
     main_exists := main_exists p; fragment_has_main := fragment_has_main p |}.

Definition with_main_exists (v : bool) (p : page) : page :=
  {| current_option := current_option p; available_options := available_options p;
     old_username := old_username p; elems := elems p;
     input_value := input_value p; input_selected := input_selected p;
     active := active p; popup_display := popup_display p;
     popup_children := popup_children p; main_html := main_html p;
     refresh_text := refresh_text p; sent := sent p; console := console p;
     main_exists := v; fragment_has_main := fragment_has_main p |}.

(** ** Statements: state transformers that may throw *)

Definition M (A : Type) : Type := page → page * completion A.

#[global] Instance M_ret : MRet M := λ A a st, (st, Normal a).
#[global] Instance M_bind : MBind M := λ A B f m st,
  match m st with
  | (st', Normal a) => f a st'
  | (st', Throw e) => (st', Throw e)
  end.

Definition throw {A} (e : exn) : M A := λ st, (st, Throw e).
Definition read {A} (f : page → A) : M A := λ st, (st, Normal (f st)).
Definition update (f : page → page) : M unit := λ st, (f st, Normal tt).
Definition lift {A} (c : completion A) : M A := λ st, (st, c).

(** The state a statement leaves behind, whichever way it ends. *)
Definition exec {A} (m : M A) (st : page) : page := fst (m st).

(** [for (const x of l) body(x)] *)
Fixpoint for_of {A} (l : list A) (body : A → M unit) : M unit :=
  match l with
  | [] => mret tt
  | x :: rest => body x ;; for_of rest body
  end.

Definition console_log (text : string) (args : list js_value) : M unit :=
  update (λ st, with_console (console st ++ [Log text args]) st).

(** [socket.send(JSON.stringify(msg))] on the open socket. *)
Definition socket_send (msg : outbound) : M unit :=
  update (λ st, with_sent (sent st ++ [msg]) st).

(** ** Document operations the script relies on *)

Definition with_ariaSelected (v : string) (e : li_elem) : li_elem :=
  {| role := role e; ariaSelected := Some v; classList := classList e;
     children := children e; on_click := on_click e |}.

Definition with_role (v : string) (e : li_elem) : li_elem :=
  {| role := Some v; ariaSelected := ariaSelected e; classList := classList e;
     children := children e; on_click := on_click e |}.

Definition classList_add (c : string) (e : li_elem) : li_elem :=
  {| role := role e; ariaSelected := ariaSelected e;
     classList := if bool_decide (c ∈ classList e) then classList e else classList e ++ [c];
     children := children e; on_click := on_click e |}.

Definition appendChild (c : li_child) (e : li_elem) : li_elem :=
  {| role := role e; ariaSelected := ariaSelected e; classList := classList e;
     children := children e ++ [c]; on_click := on_click e |}.

Definition with_on_click (i : js_value) (e : li_elem) : li_elem :=
  {| role := role e; ariaSelected := ariaSelected e; classList := classList e;
     children := children e; on_click := Some i |}.

(** [document.createElement("li")]: a fresh element, named by its position. *)
Definition createElement_li : M nat := λ st,
  (with_elems (elems st ++ [{| role := None; ariaSelected := None; classList := [];
                               children := []; on_click := None |}]) st,
   Normal (length (elems st))).

(** A write to the element [r]. *)
Definition on_elem (r : nat) (f : li_elem → li_elem) : M unit :=
  update (λ st, with_elems (alter f r (elems st)) st).

(** [input_elem.value = s]: a value that differs from the present one also
    drops the selection. *)
Definition set_input_value (s : string) : M unit :=
  update (λ st, if String.eqb s (input_value st) then st
                else with_input_selected false (with_input_value s st)).

Definition input_blur : M unit :=
  update (λ st, match active st with
                | OnUsernameInput => with_active OnBody st
                | _ => st
                end).

Definition input_focus : M unit := update (with_active OnUsernameInput).
Definition input_select : M unit := update (with_input_selected true).

(** The focus once the content of [#main] has left the document, and once
    [#main] has left it too: an element that is removed loses the focus to
    the body. *)
Definition content_removed (a : focus) : focus :=
  match a with
  | InMain _ => OnBody
  | _ => a
  end.

Definition main_removed (a : focus) : focus :=
  match a with
  | OnMain | InMain _ => OnBody
  | _ => a
  end.

(** [document.getElementById("main").innerHTML = html].  Once [#main] is
    gone the lookup gives [null], and setting a property of [null] is a
    TypeError. *)
Definition set_main_innerHTML (html : string) : M unit :=
  there ← read main_exists;
  if (there : bool) then
    update (λ st, with_main_html html (with_active (content_removed (active st)) st))
  else throw TypeError.

(** [document.getElementById("main").outerHTML = v]: the element is
    replaced by what the parser makes of the markup, which may hold an
    element with the id "main" again, or not. *)
Definition set_main_outerHTML (v : js_value) : M unit :=
  there ← read main_exists;
  if (there : bool) then
    html ← lift (to_DOMString v);
    update (λ st, with_main_exists (fragment_has_main st html)
                    (with_main_html html (with_active (main_removed (active st)) st)))
  else throw TypeError.

(** A listener run by the event dispatcher: an exception it lets escape is
    reported by the browser and ends that listener only. *)
Definition dispatch {A} (m : M A) : M unit := λ st, (exec m st, Normal tt).

(** ** The script *)

(** [name === old_username]; [old_username] is [null] or a string. *)
Definition strict_eq_old (name : js_value) (old : option string) : bool :=
  match name, old with
  | JNull, None => true
  | JStr s, Some t => String.eqb s t
  | _, _ => false
  end.

(** [x === 0] *)
Definition is_zero (x : js_value) : bool :=
  match x with
  | JNum 0 => true
  | _ => false
  end.

(** A number or [null] used as a number. *)
Definition num (c : option Z) : Z := default 0 c.

(** [l[i]] for [i] a number or [null]; [None] stands for [undefined]. *)
Definition js_index {A} (l : list A) (i : option Z) : option A :=
  match i with
  | None => None
  | Some z => if (z <? 0)%Z then None else l !! Z.to_nat z
  end.

Definition update_last_refreshed (now : string) : M unit :=
  update (with_refresh_text ("last refresh: " +:+ now)).

Definition close_popup (reset : bool) : M unit :=
  old ← read old_username;
  (match reset, old with
   | true, Some o => set_input_value o
   | _, _ => mret tt
   end) ;;
  console_log "reset old username" [] ;;
  update (with_old_username None) ;;
  update (with_popup_display "none") ;;
  update (with_popup_children []).

Definition set_username (name : js_value) : M unit :=
  close_popup false ;;
  set_main_innerHTML "" ;;
  s ← lift (ToString name);
  update (with_refresh_text ("getting PR data for user " +:+ s)) ;;
  v ← lift (to_DOMString name);
  set_input_value v.

Definition select_username (name : js_value) : M unit :=
  old ← read old_username;
  if strict_eq_old name old then mret tt
  else
    set_main_innerHTML "" ;;
    s ← lift (ToString name);
    update (with_refresh_text ("getting PR data for user " +:+ s)) ;;
    close_popup false ;;
    socket_send (OutUsernameSelect name).

Definition changeSelection (f : M unit) : M unit :=
  opts ← read available_options;
  if (length opts =? 0)%nat then mret tt
  else
    for_of opts (λ i, on_elem i (with_ariaSelected "false")) ;;
    f ;;
    cur ← read current_option;
    len ← read (λ st, Z.of_nat (length (available_options st)));
    (if (num cur >=? len)%Z then update (with_current_option (Some (num cur - len)))
     else if (num cur <? 0)%Z then update (with_current_option (Some (num cur + len)))
     else mret tt) ;;
    cur ← read current_option;
    opts ← read available_options;
    match js_index opts cur with
    | Some r => on_elem r (with_ariaSelected "true")
    | None => throw TypeError
    end.

Definition selectNext : M unit :=
  changeSelection (
    cur ← read current_option;
    match cur with
    | None => update (with_current_option (Some 0))
    | Some c => update (with_current_option (Some (c + 1)))
    end).

Definition selectPrev : M unit :=
  changeSelection (
    cur ← read current_option;
    match cur with
    | None =>
        len ← read (λ st, Z.of_nat (length (available_options st)));
        update (with_current_option (Some (len - 1)))
    | Some c => update (with_current_option (Some (c - 1)))
    end).

(** [elem.click()]: the element's click listener, if it has one, calls
    [select_username(i["name"])].  The click then reaches the document's
    click listener only to be recognised there as a click on a suggestion. *)
Definition click_elem (r : nat) : M unit :=
  e ← read (λ st, elems st !! r);
  match e ≫= on_click with
  | Some i => dispatch (name ← lift (get_field i "name"); select_username name)
  | None => mret tt
  end.

Definition confirmSelect (enter_pressed : bool) : M unit :=
  input_blur ;;
  if enter_pressed then
    console_log "force-select" [] ;;
    v ← read input_value;
    select_username (JStr v)
  else
    cur ← read current_option;
    match cur with
    | None => close_popup false
    | Some _ =>
        opts ← read available_options;
        match js_index opts cur with
        | Some r => click_elem r
        | None => throw TypeError
        end
    end.

(** The body of the loop of [apply_username_suggestions], for the
    suggestion [i]. *)
Definition add_suggestion (i : js_value) : M unit :=
  elem ← createElement_li;
  update (λ st, with_available_options (available_options st ++ [elem]) st) ;;
  on_elem elem (with_role "option") ;;
  on_elem elem (with_ariaSelected "false") ;;
  on_elem elem (classList_add "username-suggestion") ;;
  on_elem elem (classList_add "author") ;;
  avatar ← lift (get_field i "avatar_url");
  src ← lift (ToString avatar);
  name ← lift (get_field i "name");
  text ← lift (to_DOMString name);
  on_elem elem (appendChild (Img ["avatar"] src)) ;;
  on_elem elem (appendChild (Span text)) ;;
  update (λ st, with_popup_children (popup_children st ++ [elem]) st) ;;
  on_elem elem (with_on_click i).

Definition apply_username_suggestions (suggestions : js_value) : M unit :=
  len ← lift (js_length suggestions);
  if is_zero len then mret tt
  else
    update (with_current_option None) ;;
    update (with_available_options []) ;;
    update (with_popup_display "flex") ;;
    update (with_popup_children []) ;;
    items ← lift (js_iterate suggestions);
    for_of items add_suggestion.

(** [event.target] is the input wherever this is called from. *)
Definition ask_suggestions : M unit :=
  v ← read input_value;
  socket_send (OutUsernameSuggestions v).

(** ** Listeners *)

(** The socket's "message" listener.  A frame is given by what [JSON.parse]
    makes of [event.data]: a SyntaxError, or a value.  [now] is the wall
    clock text [update_last_refreshed] would read. *)
Inductive frame :=
| NotJSON
| JSON (data : js_value).

(** [k === s] for a string literal [s], as [switch] compares. *)
Definition is_str (k : js_value) (s : string) : bool :=
  match k with
  | JStr t => String.eqb t s
  | _ => false
  end.

Definition on_message (now : string) (f : frame) : M unit :=
  match f with
  | NotJSON => throw SyntaxError
  | JSON data =>
      k ← lift (get_field data "key");
      if is_str k "UpdatePage" then
        console_log "replacing main" [] ;;
        contents ← lift (get_field data "main_contents");
        set_main_outerHTML contents ;;
        update_last_refreshed now
      else if is_str k "SetUsername" then
        name ← lift (get_field data "new_name");
        set_username name
      else if is_str k "UsernameSuggestions" then
        suggestions ← lift (get_field data "suggestions");
        apply_username_suggestions suggestions
      else
        console_log "unknown message:" [data]
  end.

Definition reset_button_click : M unit :=
  close_popup false ;;
  set_main_innerHTML "" ;;
  update (with_refresh_text "getting your PR data") ;;
  socket_send OutResetUsername.

(** The first lines of the input's click and keydown listeners. *)
Definition set_old_username : M unit :=
  old ← read old_username;
  match old with
  | None =>
      console_log "set old username" [] ;;
      v ← read input_value;
      update (with_old_username (Some v))
  | Some _ => mret tt
  end.

Definition input_click : M unit :=
  set_old_username ;;
  ask_suggestions.

Record key_event := {
  key : string;
  shiftKey : bool;
  propagation_stopped : bool;
  default_prevented : bool;
}.

Definition keypress (k : string) (shift : bool) : key_event :=
  {| key := k; shiftKey := shift; propagation_stopped := false; default_prevented := false |}.

Definition stopImmediatePropagation (ev : key_event) : key_event :=
  {| key := key ev; shiftKey := shiftKey ev; propagation_stopped := true;
     default_prevented := default_prevented ev |}.

Definition preventDefault (ev : key_event) : key_event :=
  {| key := key ev; shiftKey := shiftKey ev; propagation_stopped := propagation_stopped ev;
     default_prevented := true |}.

Definition input_keydown (ev : key_event) : M key_event :=
  set_old_username ;;
  if String.eqb (key ev) "ArrowDown" then
    selectNext ;; mret (stopImmediatePropagation ev)
  else if String.eqb (key ev) "ArrowUp" then
    selectPrev ;; mret (stopImmediatePropagation ev)
  else if String.eqb (key ev) "Tab" then
    (if shiftKey ev then selectPrev else selectNext) ;;
    mret (preventDefault (stopImmediatePropagation ev))
  else if String.eqb (key ev) "Enter" then
    confirmSelect true ;; mret ev
  else if String.eqb (key ev) "Esc" then
    close_popup true ;; mret ev
  else mret ev.

Definition document_keydown (ev : key_event) : M key_event :=
  if String.eqb (key ev) "/" then
    a ← read active;
    match a with
    | OnUsernameInput => mret ev
    | _ =>
        input_focus ;;
        input_select ;;
        mret (preventDefault (stopImmediatePropagation ev))
    end
  else mret ev.

(** A node on the way from a click's target to the root: its [id] and its
    [classList], either of which a node may lack. *)
Record node := {
  node_id : option string;
  node_classList : option (list string);
}.

Definition is_combobox_node (target : node) : bool :=
  bool_decide (node_id target = Some "change-username")
  || match node_classList target with
     | Some classes => bool_decide ("username-suggestion" ∈ classes)
     | None => false
     end.

(** The bounded walk of the document's click listener: [budget] is what is
    left of the ten steps, the list is the target followed by its
    ancestors, and its end is the [null] parent. *)
Fixpoint within_combobox (budget : nat) (target : list node) : bool :=
  match budget, target with
  | O, _ => false
  | S _, [] => false
  | S budget', t :: parents =>
      if is_combobox_node t then true else within_combobox budget' parents
  end.

Definition document_click (target : list node) : M unit :=
  if within_combobox 10 target then mret tt else close_popup true.

Definition input_input : M unit := ask_suggestions.

(** ** Events *)

(** What can happen to the page.  A click carries the chain of nodes from
    its target upwards; an edit carries the text the input holds after it;
    [FocusMoved] is the browser moving the focus, as it does on its own
    when the user clicks or tabs, to an element that is there.  The form's
    submit listener only cancels the submission and is left out. *)
Inductive event :=
| Message (now : string) (f : frame)
| InputClick (target : list node)
| InputKeydown (k : string) (shift : bool)
| InputEdited (text : string)
| OptionClick (n : nat)
| ResetClick (target : list node)
| OtherClick (target : list node)
| OtherKeydown (k : string) (shift : bool)
| FocusMoved (to : focus).

(** Whether there is such an element for the focus to move to: [#main]
    may be gone, or emptied. *)
Definition focusable (to : focus) (st : page) : bool :=
  match to with
  | OnMain => main_exists st
  | InMain _ => main_exists st && negb (String.eqb (main_html st) "")
  | _ => true
  end.

(** A keydown in the input runs the input's listener, then the document's
    unless propagation was stopped; the returned event carries the flags. *)
Definition keydown_in_input (ev : key_event) : page → page * key_event := λ st,
  match input_keydown ev st with
  | (st', Normal ev') =>
      if propagation_stopped ev' then (st', ev')
      else match document_keydown ev' st' with
           | (st'', Normal ev'') => (st'', ev'')
           | (st'', Throw _) => (st'', ev')
           end
  | (st', Throw _) =>
      match document_keydown ev st' with
      | (st'', Normal ev'') => (st'', ev'')
      | (st'', Throw _) => (st'', ev)
      end
  end.

Definition handle (e : event) (st : page) : page :=
  match e with
  | Message now f => exec (on_message now f) st
  | InputClick target => exec (dispatch input_click ;; dispatch (document_click target)) st
  | InputKeydown k shift => fst (keydown_in_input (keypress k shift) st)
  | InputEdited text =>
      exec (dispatch input_input) (with_input_selected false (with_input_value text st))
  | OptionClick n =>
      match popup_children st !! n with
      | Some r => exec (click_elem r) st
      | None => st
      end
  | ResetClick target =>
      exec (dispatch reset_button_click ;; dispatch (document_click target)) st
  | OtherClick target => exec (document_click target) st
  | OtherKeydown k shift => exec (document_keydown (keypress k shift)) st
  | FocusMoved to => if focusable to st then with_active to st else st
  end.

Definition run (events : list event) (st : page) : page :=
  foldl (λ s e, handle e s) st events.

(** The page as loaded in a browser whose parser is [parser]: [#main] in
    place, nothing fetched, popup hidden, [input] showing the name the
    server rendered. *)
Definition initial (parser : string → bool) (shown : string) : page :=
  {| current_option := None; available_options := []; old_username := None;
     elems := []; input_value := shown; input_selected := false; active := OnBody;
     popup_display := "none"; popup_children := []; main_html := "";
     refresh_text := ""; sent := []; console := [];
     main_exists := true; fragment_has_main := parser |}.

(** The protocol's messages, as the frames the server sends for them. *)
Record suggestion := { name : string; avatar_url : string }.

Definition suggestion_value (s : suggestion) : js_value :=
  JObj [("name", JStr (name s)); ("avatar_url", JStr (avatar_url s))].

Definition UpdatePage (main_contents : string) : frame :=
  JSON (JObj [("key", JStr "UpdatePage"); ("main_contents", JStr main_contents)]).

Definition SetUsername (new_name : string) : frame :=
  JSON (JObj [("key", JStr "SetUsername"); ("new_name", JStr new_name)]).

Definition UsernameSuggestions (suggestions : list suggestion) : frame :=
  JSON (JObj [("key", JStr "UsernameSuggestions");
              ("suggestions", JArr (suggestion_value <$> suggestions))]).

(** The option list as the script sees it, and as the popup shows it. *)
Definition options (st : page) : list (option li_elem) :=
  (λ r, elems st !! r) <$> available_options st.

Definition shown_options (st : page) : list (option li_elem) :=
  (λ r, elems st !! r) <$> popup_children st.

Definition popup_open (st : page) : bool :=
  negb (String.eqb (popup_display st) "none").

(** The input inside [form#change-username], as a click's target chain. *)
Definition input_in_form : list node :=
  [ {| node_id := Some "change-username-input"; node_classList := Some [] |};
    {| node_id := Some "change-username"; node_classList := Some [] |} ].

(** The element [apply_username_suggestions] builds for a suggestion. *)
Definition option_elem (s : suggestion) : li_elem :=
  {| role := Some "option"; ariaSelected := Some "false";
     classList := ["username-suggestion"; "author"];
     children := [Img ["avatar"] (avatar_url s); Span (name s)];
     on_click := Some (suggestion_value s) |}.

(** ** Vocabulary of the properties *)

(** The scenarios' stand-in for the parser.  It is right on the fragments
    they push: a paragraph or a plain text holds no element with the id
    "main", and a fragment that opens with the tag of such an element holds
    one. *)
Definition sample_parser (html : string) : bool :=
  String.eqb (String.substring 0 16 html) "<main id='main'>".

Definition alice : suggestion := {| name := "alice"; avatar_url := "a.png" |}.
Definition bob : suggestion := {| name := "bob"; avatar_url := "b.png" |}.

(** The state [close_popup(true)] starts from once the text is restored. *)
Definition restored (st : page) : page :=
  match old_username st with
  | Some o => exec (set_input_value o) st
  | None => st
  end.

(** [input_elem.blur()] changes nothing but the focus, and takes it off the
    input. *)
Definition blurred (st : page) : page := exec input_blur st.

(** What a commit leaves behind: the popup hidden and emptied, no snapshot,
    one [UsernameSelect] more on the socket, the dashboard cleared under a
    placeholder; the script's option array and highlight stay as they were. *)
Definition committed (name : string) (st st' : page) : Prop :=
  popup_open st' = false
  ∧ shown_options st' = []
  ∧ old_username st' = None
  ∧ sent st' = (sent st ++ [OutUsernameSelect (JStr name)])
  ∧ main_html st' = ""
  ∧ refresh_text st' = "getting PR data for user " +:+ name
  ∧ available_options st' = available_options st
  ∧ current_option st' = current_option st
  ∧ input_value st' = input_value st.

(** The element [r] is an option showing the suggestion [s]. *)
Definition offers (st : page) (r : nat) (s : suggestion) : Prop :=
  ∃ e, elems st !! r = Some e ∧ on_click e = Some (suggestion_value s).

(** An edit session: the input showing "alice" is clicked, the server
    offers alice and bob, the user types "bob". *)
Definition session_on_alice : page :=
  run [InputClick input_in_form;
       Message "09:00" (UsernameSuggestions [alice; bob]);
       InputEdited "bob"]
      (initial sample_parser "alice").

(** The user clicked the input showing "alice" and typed "octocat"; no
    suggestion came back. *)
Definition typed_octocat : page :=
  run [InputClick input_in_form; InputEdited "octocat"] (initial sample_parser "alice").

(** The session of [session_on_alice], before anything is typed. *)
Definition offered_alice : page :=
  run [InputClick input_in_form;
       Message "09:00" (UsernameSuggestions [alice; bob])]
      (initial sample_parser "alice").

(** The user clicked the input showing "alice" and has typed "al" so far. *)
Definition typing_al : page :=
  run [InputClick input_in_form; InputEdited "al"] (initial sample_parser "alice").

(** A fragment that holds no element with the id "main". *)
Definition bare_fragment : string := "<p>nothing to review</p>".

(** The server pushed [bare_fragment], which took [#main] away; then the
    user clicked the input showing "alice" and typed "octocat". *)
Definition typed_octocat_without_main : page :=
  run [Message "08:59" (UpdatePage bare_fragment);
       InputClick input_in_form; InputEdited "octocat"]
      (initial sample_parser "alice").

(** The focus sits in some other editable field of the page. *)
Definition editing_elsewhere : page :=
  run [FocusMoved (OnOther true)] (initial sample_parser "octocat").

(** The index [changeSelection] settles on when [f] left the highlight at
    [c], among [n] options. *)
Definition wrapped (n c : Z) : Z :=
  if (c >=? n)%Z then (c - n)%Z else if (c <? 0)%Z then (c + n)%Z else c.

(** Two states that differ at most in their elements and highlight. *)
Definition same_but_highlight (st st' : page) : Prop :=
  available_options st' = available_options st
  ∧ old_username st' = old_username st
  ∧ input_value st' = input_value st
  ∧ input_selected st' = input_selected st
  ∧ active st' = active st
  ∧ popup_display st' = popup_display st
  ∧ popup_children st' = popup_children st
  ∧ main_html st' = main_html st
  ∧ refresh_text st' = refresh_text st
  ∧ sent st' = sent st
  ∧ console st' = console st
  ∧ main_exists st' = main_exists st.

(** What the callbacks of [selectNext] and [selectPrev] set the highlight to. *)
Definition next_of (cur : option Z) (n : Z) : Z :=
  match cur with None => 0 | Some i => i + 1 end.

Definition prev_of (cur : option Z) (n : Z) : Z :=
  match cur with None => n - 1 | Some i => i - 1 end.

(** Bob, the last of two options, is highlighted. *)
Definition highlighted_bob : page :=
  run [InputKeydown "ArrowUp" false] offered_alice.

(** Whether the listener's [switch] has a case for the discriminator [k]. *)
Definition recognised (k : js_value) : bool :=
  is_str k "UpdatePage" || is_str k "SetUsername" || is_str k "UsernameSuggestions".

(** Two states that differ at most in their elements and in which of them
    are options, in the script's array and in the popup. *)
Definition same_but_options (st st' : page) : Prop :=
  current_option st' = current_option st
  ∧ old_username st' = old_username st
  ∧ input_value st' = input_value st
  ∧ input_selected st' = input_selected st
  ∧ active st' = active st
  ∧ popup_display st' = popup_display st
  ∧ main_html st' = main_html st
  ∧ refresh_text st' = refresh_text st
  ∧ sent st' = sent st
  ∧ console st' = console st
  ∧ main_exists st' = main_exists st.

(** What the options read after a reply with the suggestions [l]. *)
Definition offered (l : list suggestion) : list (option li_elem) :=
  (λ s, Some (option_elem s)) <$> l.

(** The highlight is [null] or an index into [available_options]. *)
Definition highlight_valid (st : page) : Prop :=
  match current_option st with
  | None => True
  | Some i => (0 ≤ i < Z.of_nat (length (available_options st)))%Z
  end.

(** The invariant of the combobox: a valid highlight, and with no option
    the popup is closed and nothing is highlighted. *)
Definition combobox_invariant (st : page) : Prop :=
  highlight_valid st
  ∧ (available_options st = [] → popup_open st = false ∧ current_option st = None).

(** The frames of the protocol: the three messages with their payloads at
    their types, and what the listener has no case for. *)
Definition protocol_frame (f : frame) : Prop :=
  f = NotJSON
  ∨ (∃ data, f = JSON data ∧
       match get_field data "key" with
       | Normal k => recognised k = false
       | Throw _ => True
       end)
  ∨ (∃ main_contents, f = UpdatePage main_contents)
  ∨ (∃ new_name, f = SetUsername new_name)
  ∨ (∃ suggestions, f = UsernameSuggestions suggestions).

Definition protocol_event (e : event) : Prop :=
  match e with
  | Message _ f => protocol_frame f
  | _ => True
  end.

(** The states the page can be in: the page as loaded, then any event, or
    a call of [confirmSelect()]. *)
Inductive reachable : page → Prop :=
| reachable_initial parser shown : reachable (initial parser shown)
| reachable_event e st : reachable st → protocol_event e → reachable (handle e st)
| reachable_confirm st : reachable st → reachable (exec (confirmSelect false) st).

(** A property of the page that a statement keeps, however it ends. *)
Definition preserved (P : page → Prop) {A} (m : M A) : Prop :=
  ∀ st, P st → P (fst (m st)).

(** A key the input's keydown listener has no case for, and that is not
    the document's shortcut either. *)
Definition plain_key (k : string) : bool :=
  negb (String.eqb k "ArrowDown" || String.eqb k "ArrowUp" || String.eqb k "Tab"
        || String.eqb k "Enter" || String.eqb k "Esc" || String.eqb k "/").

(** Typing: each stroke is a keydown of a plain key followed by the edit
    it causes, given by the text the input holds afterwards. *)
Definition typing (strokes : list (string * string)) : list event :=
  strokes ≫= (λ stroke, [InputKeydown (fst stroke) false; InputEdited (snd stroke)]).

(** Nothing was sent since the state where [s] had been sent and the focus
    was [a], and the focus is where it was, or on the body if it was in
    [#main] and that was removed. *)
Definition quiet (s : list outbound) (a : focus) (st : page) : Prop :=
  sent st = s ∧ (active st = a ∨ active st = main_removed a).

(** A JSON object frame with the discriminator [k] and the other
    properties [payload]. *)
Definition keyed (k : string) (payload : list (string * js_value)) : frame :=
  JSON (JObj (("key", JStr k) :: payload)).

(** A value that has neither a [length] nor an iteration. *)
Definition scalar (v : js_value) : bool :=
  match v with
  | JNum _ | JBool _ => true
  | _ => false
  end.

(** The elements once [changeSelection] has unmarked every option. *)
Definition unmarked (st : page) : list li_elem :=
  foldl (λ es i, alter (with_ariaSelected "false") i es) (elems st) (available_options st).

(** The [aria-selected] mark the option at index [i] is due. *)
Definition mark_of (st : page) (i : nat) : string :=
  if bool_decide (current_option st = Some (Z.of_nat i)) then "true" else "false".

(** Every option is an element carrying the mark it is due: "true" on the
    highlighted one, "false" on the others. *)
Definition marks_follow_highlight (st : page) : Prop :=
  ∀ i r, available_options st !! i = Some r →
         ∃ e, elems st !! r = Some e ∧ ariaSelected e = Some (mark_of st i).

Definition wellformed (st : page) : Prop :=
  highlight_valid st
  ∧ NoDup (available_options st)
  ∧ marks_follow_highlight st
  ∧ popup_children st `prefix_of` available_options st
  ∧ (popup_open st = false → popup_children st = []).

(** An element whose mark is "false". *)
Definition unmarked_at (es : list li_elem) (r : nat) : Prop :=
  ∃ e, es !! r = Some e ∧ ariaSelected e = Some "false".

(** The states of the loop of [apply_username_suggestions]: nothing is
    highlighted, the popup is open, the options are distinct elements, all
    unmarked. *)
Definition filling (st : page) : Prop :=
  current_option st = None
  ∧ popup_open st = true
  ∧ NoDup (available_options st)
  ∧ (∀ r, r ∈ available_options st → unmarked_at (elems st) r).

(** Nothing was sent since [s] had been. *)
Definition unsent (s : list outbound) (st : page) : Prop := sent st = s.

(** A statement that sends nothing. *)
Definition silent {A} (m : M A) : Prop := ∀ s, preserved (unsent s) m.

(** A statement that sends one message at most, and takes none back. *)
Definition sends_at_most_once {A} (m : M A) : Prop :=
  ∀ st, sent (fst (m st)) = sent st ∨ ∃ msg, sent (fst (m st)) = sent st ++ [msg].

(** Enter would commit: a snapshot is held and the text differs from it. *)
Definition text_changed (st : page) : bool :=
  match old_username st with
  | Some o => negb (String.eqb (input_value st) o)
  | None => false
  end.

(** [#main] is gone, and since [s] had been sent only queries for
    suggestions were. *)
Definition stuck (s : list outbound) (st : page) : Prop :=
  main_exists st = false ∧ ∃ queries, sent st = s ++ (OutUsernameSuggestions <$> queries).

(** The user typed "al" over "alice", and then the server pushed
    [bare_fragment]. *)
Definition typing_al_without_main : page :=
  run [Message "09:03" (UpdatePage bare_fragment)] typing_al.

(** A target eleven nodes deep: ten plain nodes, then the form. *)
Definition deep_in_form : list node :=
  replicate 10 {| node_id := Some ""; node_classList := Some [] |}
  ++ [{| node_id := Some "change-username"; node_classList := Some [] |}].

(** * Properties *)

(** Symbolic execution of a statement on a state: [fields] reads fields
    through the setters, [mstep] also runs the monad's combinators. *)
Ltac fields :=
  cbn [fst snd
       current_option available_options old_username elems input_value input_selected
       active popup_display popup_children main_html refresh_text sent console
       main_exists fragment_has_main with_main_exists
       with_current_option with_available_options with_old_username with_elems
       with_input_value with_input_selected with_active with_popup_display
       with_popup_children with_main_html with_refresh_text with_sent with_console
       key shiftKey propagation_stopped default_prevented keypress
       stopImmediatePropagation preventDefault].

Ltac fields_everywhere :=
  cbn [fst snd
       current_option available_options old_username elems input_value input_selected
       active popup_display popup_children main_html refresh_text sent console
       main_exists fragment_has_main with_main_exists
       with_current_option with_available_options with_old_username with_elems
       with_input_value with_input_selected with_active with_popup_display
       with_popup_children with_main_html with_refresh_text with_sent with_console
       key shiftKey propagation_stopped default_prevented keypress
       stopImmediatePropagation preventDefault] in *.

Ltac mstep :=
  cbv [mbind M_bind mret M_ret read update lift throw console_log socket_send
       exec dispatch];
  fields.

(** ** Scenarios *)

(** With alice and bob offered, ArrowDown highlights 0, then 1, then 0
    again; ArrowUp from nothing highlights 1. *)
Example arrows_walk_the_options :
  current_option (run [InputKeydown "ArrowDown" false] offered_alice) = Some 0%Z
  ∧ current_option (run [InputKeydown "ArrowDown" false;
                         InputKeydown "ArrowDown" false] offered_alice) = Some 1%Z
  ∧ current_option (run [InputKeydown "ArrowDown" false;
                         InputKeydown "ArrowDown" false;
                         InputKeydown "ArrowDown" false] offered_alice) = Some 0%Z
  ∧ current_option (run [InputKeydown "ArrowUp" false] offered_alice) = Some 1%Z.
Proof. vm_compute. repeat split. Qed.

(** The server pushes [SetUsername("carol")] while the popup is open: the
    popup closes, the input shows "carol", nothing is sent in response. *)
Example unsolicited_SetUsername :
  let st := handle (Message "09:05" (SetUsername "carol")) offered_alice in
  popup_open offered_alice = true
  ∧ popup_open st = false
  ∧ shown_options st = []
  ∧ input_value st = "carol"
  ∧ refresh_text st = "getting PR data for user carol"
  ∧ sent st = sent offered_alice.
Proof. vm_compute. repeat split. Qed.

(** A click outside the combobox while "al" is typed over "alice" puts
    "alice" back and sends nothing. *)
Example click_outside_cancels :
  let st := handle (OtherClick []) typing_al in
  input_value st = "alice" ∧ old_username st = None ∧ sent st = sent typing_al.
Proof. vm_compute. repeat split. Qed.

(** A click on the option showing bob commits "bob". *)
Example click_on_bob_commits :
  let st := handle (OptionClick 1) offered_alice in
  sent st = sent offered_alice ++ [OutUsernameSelect (JStr "bob")]
  ∧ popup_open st = false
  ∧ old_username st = None.
Proof. vm_compute. repeat split. Qed.

(** ** select_username *)

Lemma select_username_same name st :
  strict_eq_old name (old_username st) = true →
  select_username name st = (st, Normal tt).
Proof.
  intros Heq. unfold select_username. mstep. now rewrite Heq.
Qed.

Lemma set_main_innerHTML_there html st :
  main_exists st = true →
  set_main_innerHTML html st =
    (with_main_html html (with_active (content_removed (active st)) st), Normal tt).
Proof. intros Hm. unfold set_main_innerHTML. mstep. now rewrite Hm. Qed.

Lemma set_main_innerHTML_gone html st :
  main_exists st = false → set_main_innerHTML html st = (st, Throw TypeError).
Proof. intros Hm. unfold set_main_innerHTML. mstep. now rewrite Hm. Qed.

Lemma select_username_commit name s st :
  strict_eq_old name (old_username st) = false →
  main_exists st = true →
  ToString name = Normal s →
  select_username name st =
    (with_sent (sent st ++ [OutUsernameSelect name])
       (with_popup_children []
          (with_popup_display "none"
             (with_old_username None
                (with_console (console st ++ [Log "reset old username" []])
                   (with_refresh_text ("getting PR data for user " +:+ s)
                      (with_main_html ""
                         (with_active (content_removed (active st)) st))))))),
     Normal tt).
Proof.
  intros Hne Hm Hs. unfold select_username, close_popup, set_main_innerHTML. mstep.
  rewrite Hne, Hm, Hs. reflexivity.
Qed.

(** With [#main] gone, a commit ends at its first statement. *)
Lemma select_username_without_main name st :
  strict_eq_old name (old_username st) = false →
  main_exists st = false →
  select_username name st = (st, Throw TypeError).
Proof.
  intros Hne Hm. unfold select_username, set_main_innerHTML. mstep.
  now rewrite Hne, Hm.
Qed.

Lemma strict_eq_old_str s t :
  strict_eq_old (JStr s) (Some t) = true ↔ s = t.
Proof. simpl. apply String.eqb_eq. Qed.

Lemma strict_eq_old_str_ne s t :
  s ≠ t → strict_eq_old (JStr s) (Some t) = false.
Proof. intros Hne. simpl. now apply String.eqb_neq. Qed.

(** ** Statements that always complete *)

Lemma close_popup_false st :
  close_popup false st =
    (with_popup_children []
       (with_popup_display "none"
          (with_old_username None
             (with_console (console st ++ [Log "reset old username" []]) st))),
     Normal tt).
Proof. reflexivity. Qed.

Lemma close_popup_true st :
  close_popup true st =
    (with_popup_children []
       (with_popup_display "none"
          (with_old_username None
             (with_console (console st ++ [Log "reset old username" []])
                (restored st)))),
     Normal tt).
Proof.
  unfold close_popup, restored, set_input_value. mstep.
  destruct (old_username st) as [o|]; [|reflexivity].
  destruct (String.eqb o (input_value st)); reflexivity.
Qed.

Lemma restored_input_value st o :
  old_username st = Some o → input_value (restored st) = o.
Proof.
  intros Hold. unfold restored, set_input_value. rewrite Hold. mstep.
  destruct (String.eqb o (input_value st)) eqn:E; [|reflexivity].
  symmetry. now apply String.eqb_eq.
Qed.

Lemma restored_sent st : sent (restored st) = sent st.
Proof.
  unfold restored, set_input_value. destruct (old_username st) as [o|]; [|reflexivity].
  mstep. now destruct (String.eqb o (input_value st)).
Qed.

Lemma set_old_username_run st :
  set_old_username st =
    (match old_username st with
     | None => with_old_username (Some (input_value st))
                 (with_console (console st ++ [Log "set old username" []]) st)
     | Some _ => st
     end, Normal tt).
Proof. unfold set_old_username. mstep. now destruct (old_username st). Qed.

Lemma input_blur_run st : input_blur st = (blurred st, Normal tt).
Proof. reflexivity. Qed.

Lemma blurred_active st : active (blurred st) ≠ OnUsernameInput.
Proof.
  unfold blurred, input_blur. mstep.
  destruct (active st) eqn:E; mstep; congruence.
Qed.

Lemma blurred_fields st :
  current_option (blurred st) = current_option st
  ∧ available_options (blurred st) = available_options st
  ∧ old_username (blurred st) = old_username st
  ∧ elems (blurred st) = elems st
  ∧ input_value (blurred st) = input_value st
  ∧ popup_display (blurred st) = popup_display st
  ∧ popup_children (blurred st) = popup_children st
  ∧ main_html (blurred st) = main_html st
  ∧ refresh_text (blurred st) = refresh_text st
  ∧ sent (blurred st) = sent st
  ∧ console (blurred st) = console st.
Proof. unfold blurred, input_blur. mstep. now destruct (active st). Qed.

Lemma blurred_main_exists st : main_exists (blurred st) = main_exists st.
Proof. unfold blurred, input_blur. mstep. now destruct (active st). Qed.

Lemma content_removed_off_input a :
  a ≠ OnUsernameInput → content_removed a ≠ OnUsernameInput.
Proof. destruct a; cbn; congruence. Qed.

Lemma confirmSelect_forced st :
  confirmSelect true st =
    select_username (JStr (input_value st))
      (with_console (console st ++ [Log "force-select" []]) (blurred st)).
Proof.
  unfold confirmSelect, blurred, input_blur. mstep. now destruct (active st).
Qed.

Lemma confirmSelect_unhighlighted st :
  current_option st = None →
  confirmSelect false st = close_popup false (blurred st).
Proof.
  intros Hcur. unfold confirmSelect, blurred, input_blur. mstep.
  destruct (active st); mstep; now rewrite Hcur.
Qed.

(** ** Keys pressed in the input *)

Lemma input_keydown_Enter shift st :
  input_keydown (keypress "Enter" shift) st =
    match confirmSelect true (exec set_old_username st) with
    | (st', Normal _) => (st', Normal (keypress "Enter" shift))
    | (st', Throw e) => (st', Throw e)
    end.
Proof.
  unfold input_keydown. mstep. cbn [String.eqb Ascii.eqb Bool.eqb].
  now rewrite set_old_username_run.
Qed.

Lemma input_keydown_Esc shift st :
  input_keydown (keypress "Esc" shift) st =
    (exec (close_popup true) (exec set_old_username st), Normal (keypress "Esc" shift)).
Proof.
  unfold input_keydown. mstep. cbn [String.eqb Ascii.eqb Bool.eqb].
  rewrite set_old_username_run. mstep. now rewrite close_popup_true.
Qed.

Lemma input_keydown_Escape shift st :
  input_keydown (keypress "Escape" shift) st =
    (exec set_old_username st, Normal (keypress "Escape" shift)).
Proof.
  unfold input_keydown. mstep. cbn [String.eqb Ascii.eqb Bool.eqb].
  now rewrite set_old_username_run.
Qed.

(** Keys other than "/" pass through the document's listener untouched. *)
Lemma document_keydown_other ev st :
  String.eqb (key ev) "/" = false → document_keydown ev st = (st, Normal ev).
Proof. intros Hk. unfold document_keydown. now rewrite Hk. Qed.

(** ** Commit *)

Lemma select_username_committed name st :
  old_username st ≠ Some name →
  main_exists st = true →
  snd (select_username (JStr name) st) = Normal tt ∧
  committed name st (exec (select_username (JStr name)) st) ∧
  active (exec (select_username (JStr name)) st) = content_removed (active st).
Proof.
  intros Hne Hm. unfold exec.
  rewrite (select_username_commit _ name); [| | exact Hm | reflexivity].
  2: { destruct (old_username st) as [o|]; [|reflexivity].
       apply strict_eq_old_str_ne. congruence. }
  unfold committed, popup_open, shown_options. mstep. repeat split; reflexivity.
Qed.

Lemma handle_Enter shift st :
  handle (InputKeydown "Enter" shift) st = exec (confirmSelect true) (exec set_old_username st).
Proof.
  unfold handle, keydown_in_input. rewrite input_keydown_Enter.
  unfold exec at 2.
  destruct (confirmSelect true (exec set_old_username st)) as [st1 [[]|e]];
  now rewrite document_keydown_other.
Qed.

Lemma handle_Enter_snapshot shift st snapshot :
  old_username st = Some snapshot →
  handle (InputKeydown "Enter" shift) st =
    exec (select_username (JStr (input_value st)))
      (with_console (console st ++ [Log "force-select" []]) (blurred st)).
Proof.
  intros Hold. rewrite handle_Enter. unfold exec.
  now rewrite set_old_username_run, Hold, confirmSelect_forced.
Qed.

Lemma Enter_commits shift st snapshot :
  main_exists st = true →
  old_username st = Some snapshot →
  snapshot ≠ input_value st →
  committed (input_value st) st (handle (InputKeydown "Enter" shift) st) ∧
  active (handle (InputKeydown "Enter" shift) st) ≠ OnUsernameInput.
Proof.
  intros Hm Hold Hne.
  destruct (blurred_fields st)
    as (Hb_cur & Hb_av & Hb_old & _ & Hb_in & _ & _ & _ & _ & Hb_sent & Hb_con).
  rewrite (handle_Enter_snapshot _ _ _ Hold).
  set (st1 := with_console _ _).
  destruct (select_username_committed (input_value st) st1) as (_ & Hc & Ha).
  { subst st1. fields. rewrite Hb_old, Hold. congruence. }
  { subst st1. fields. now rewrite blurred_main_exists. }
  destruct Hc as (? & ? & ? & ? & ? & ? & ? & ? & ?).
  subst st1. fields_everywhere. unfold committed.
  split; [repeat split; congruence|].
  rewrite Ha. apply content_removed_off_input, blurred_active.
Qed.

(** Enter on a changed text once [#main] is gone: the listener throws at
    the first statement of the commit, and the page is as the first lines
    of the listener left it. *)
Lemma Enter_without_main shift st snapshot :
  main_exists st = false →
  old_username st = Some snapshot →
  snapshot ≠ input_value st →
  input_keydown (keypress "Enter" shift) st =
    (with_console (console st ++ [Log "force-select" []]) (blurred st), Throw TypeError).
Proof.
  intros Hm Hold Hne.
  destruct (blurred_fields st) as (_ & _ & Hb_old & _ & Hb_in & _).
  rewrite input_keydown_Enter. unfold exec.
  rewrite set_old_username_run, Hold, confirmSelect_forced. cbn [fst].
  rewrite select_username_without_main; [reflexivity | |].
  - fields. rewrite Hb_old, Hold. now apply strict_eq_old_str_ne.
  - fields. now rewrite blurred_main_exists.
Qed.

Lemma click_elem_offers st r s :
  offers st r s →
  click_elem r st = (exec (select_username (JStr (name s))) st, Normal tt).
Proof.
  intros (e & He & Hclick). unfold click_elem. mstep.
  rewrite He. cbn [mbind option_bind]. rewrite Hclick. reflexivity.
Qed.

Lemma blurred_offers st r s : offers st r s → offers (blurred st) r s.
Proof.
  destruct (blurred_fields st) as (_ & _ & _ & He & _). unfold offers. now rewrite He.
Qed.

Lemma confirmSelect_highlighted st i r :
  current_option st = Some i →
  js_index (available_options st) (Some i) = Some r →
  confirmSelect false st = click_elem r (blurred st).
Proof.
  intros Hcur Hr.
  destruct (blurred_fields st) as (Hb_cur & Hb_av & _).
  unfold confirmSelect. cbv [mbind M_bind]. rewrite input_blur_run. mstep.
  now rewrite Hb_cur, Hcur, Hb_av, Hr.
Qed.

(** C4, in the form the script satisfies.  An actual change commit made
    while the document has its [#main] -- Enter on a text that differs from
    the snapshot, [confirmSelect()] on a highlighted option, or a click on a
    shown option, whose name differs from the snapshot -- hides and empties
    the popup, clears the snapshot, sends exactly one [UsernameSelect] with
    that name and puts the placeholder up.  The input is left without
    focus: [confirmSelect] blurs it, and a click that comes with the focus
    off the input does not put it back.  [available_options] and
    [current_option] are not cleared: they keep their values. *)
Theorem commit_closes_and_sends_once :
  (∀ shift st snapshot,
     main_exists st = true →
     old_username st = Some snapshot →
     snapshot ≠ input_value st →
     committed (input_value st) st (handle (InputKeydown "Enter" shift) st)
     ∧ active (handle (InputKeydown "Enter" shift) st) ≠ OnUsernameInput)
  ∧ (∀ st i r s,
       main_exists st = true →
       current_option st = Some i →
       js_index (available_options st) (Some i) = Some r →
       offers st r s →
       old_username st ≠ Some (name s) →
       confirmSelect false st = (exec (confirmSelect false) st, Normal tt)
       ∧ committed (name s) st (exec (confirmSelect false) st)
       ∧ active (exec (confirmSelect false) st) ≠ OnUsernameInput)
  ∧ (∀ st n r s,
       main_exists st = true →
       popup_children st !! n = Some r →
       offers st r s →
       old_username st ≠ Some (name s) →
       active st ≠ OnUsernameInput →
       committed (name s) st (handle (OptionClick n) st)
       ∧ active (handle (OptionClick n) st) ≠ OnUsernameInput).
Proof.
  split; [|split].
  - intros. now apply Enter_commits with snapshot.
  - intros st i r s Hm Hcur Hr Hoff Hne.
    destruct (blurred_fields st)
      as (Hb_cur & Hb_av & Hb_old & _ & Hb_in & _ & _ & _ & _ & Hb_sent & _).
    unfold exec. rewrite (confirmSelect_highlighted _ _ _ Hcur Hr).
    rewrite (click_elem_offers _ _ s) by now apply blurred_offers.
    destruct (select_username_committed (name s) (blurred st)) as (_ & Hc & Ha);
      [now rewrite Hb_old | now rewrite blurred_main_exists |].
    fields. split; [reflexivity|]. split.
    + destruct Hc as (? & ? & ? & ? & ? & ? & ? & ? & ?).
      unfold committed. repeat split; congruence.
    + rewrite Ha. apply content_removed_off_input, blurred_active.
  - intros st n r s Hm Hn Hoff Hne Hact. unfold handle. rewrite Hn.
    unfold exec at 1 2. rewrite (click_elem_offers _ _ s) by done. fields.
    destruct (select_username_committed (name s) st) as (_ & Hc & Ha); [done | done |].
    split; [exact Hc|]. rewrite Ha. now apply content_removed_off_input.
Qed.

Lemma commit_closes_and_sends_once_witness :
  main_exists session_on_alice = true
  ∧ old_username session_on_alice = Some "alice"
  ∧ "alice" ≠ input_value session_on_alice
  ∧ committed (input_value session_on_alice) session_on_alice
      (handle (InputKeydown "Enter" false) session_on_alice)
  ∧ active (handle (InputKeydown "Enter" false) session_on_alice) ≠ OnUsernameInput.
Proof.
  split; [reflexivity|]. split; [reflexivity|]. split; [vm_compute; discriminate|].
  apply (proj1 commit_closes_and_sends_once false session_on_alice "alice");
    [reflexivity | reflexivity | vm_compute; discriminate].
Defined.

(** C4, counterexample.  With alice highlighted and "bob" typed, Enter
    commits "bob" with one message, yet afterwards the script still holds
    the two options of the last reply and the highlight on the first: the
    option list is not cleared.  And once a fragment without [#main] has
    replaced that element, Enter on "octocat" typed over "alice" commits
    nothing: no message is sent and the snapshot is still held. *)
Lemma commit_keeps_options_and_needs_main :
  let before := handle (InputKeydown "ArrowDown" false) session_on_alice in
  let after := handle (InputKeydown "Enter" false) before in
  let stuck := handle (InputKeydown "Enter" false) typed_octocat_without_main in
  (old_username before = Some "alice"
   ∧ input_value before = "bob"
   ∧ sent after = sent before ++ [OutUsernameSelect (JStr "bob")]
   ∧ options after = [Some (with_ariaSelected "true" (option_elem alice));
                      Some (option_elem bob)]
   ∧ current_option after = Some 0%Z)
  ∧ (old_username typed_octocat_without_main = Some "alice"
     ∧ input_value typed_octocat_without_main = "octocat"
     ∧ sent stuck = sent typed_octocat_without_main
     ∧ old_username stuck = Some "alice").
Proof. vm_compute. repeat split. Qed.

(** ** Enter *)

(** Enter on a text equal to the snapshot, or with no snapshot held (the
    listener then takes the text itself as the snapshot): nothing is sent and
    the dashboard is left alone. *)
Lemma Enter_same shift st :
  old_username st = None ∨ old_username st = Some (input_value st) →
  let st' := handle (InputKeydown "Enter" shift) st in
  sent st' = sent st ∧ main_html st' = main_html st ∧ refresh_text st' = refresh_text st
  ∧ popup_display st' = popup_display st ∧ popup_children st' = popup_children st
  ∧ old_username st' = Some (input_value st).
Proof.
  intros Hold st'. subst st'.
  rewrite handle_Enter. unfold exec. rewrite set_old_username_run, confirmSelect_forced.
  fields. set (st0 := match old_username st with None => _ | Some _ => st end).
  assert (old_username st0 = Some (input_value st) ∧ input_value st0 = input_value st
          ∧ sent st0 = sent st ∧ main_html st0 = main_html st
          ∧ refresh_text st0 = refresh_text st ∧ popup_display st0 = popup_display st
          ∧ popup_children st0 = popup_children st) as (H1 & H2 & H3 & H4 & H5 & H6 & H7).
  { subst st0. destruct Hold as [Hold | Hold]; rewrite Hold; fields; done. }
  destruct (blurred_fields st0) as (_ & _ & Hb_old & _ & Hb_in & ? & ? & ? & ? & ? & _).
  rewrite H2. rewrite select_username_same.
  - fields. repeat split; congruence.
  - fields. rewrite Hb_old, H1. now apply strict_eq_old_str.
Qed.

(** C1, in the form the script satisfies.  With no popup open, the input
    showing "octocat", a snapshot held that differs from "octocat" and
    [#main] in the document, pressing Enter sends exactly one
    [UsernameSelect] with [selected_name] "octocat". *)
Theorem enter_sends_select_once shift st snapshot :
  popup_open st = false →
  input_value st = "octocat" →
  old_username st = Some snapshot →
  snapshot ≠ "octocat" →
  main_exists st = true →
  sent (handle (InputKeydown "Enter" shift) st)
  = sent st ++ [OutUsernameSelect (JStr "octocat")].
Proof.
  intros _ Hin Hold Hne Hm.
  destruct (Enter_commits shift st snapshot Hm Hold) as [Hc _]; [congruence|].
  destruct Hc as (_ & _ & _ & Hsent & _). now rewrite Hsent, Hin.
Qed.

Lemma enter_sends_select_once_witness :
  popup_open typed_octocat = false
  ∧ input_value typed_octocat = "octocat"
  ∧ old_username typed_octocat = Some "alice"
  ∧ "alice" ≠ "octocat"
  ∧ main_exists typed_octocat = true
  ∧ sent (handle (InputKeydown "Enter" false) typed_octocat)
    = (sent typed_octocat ++ [OutUsernameSelect (JStr "octocat")]).
Proof.
  do 3 (split; [reflexivity|]). split; [discriminate|]. split; [reflexivity|].
  apply (enter_sends_select_once false typed_octocat "alice");
    [reflexivity | reflexivity | reflexivity | discriminate | reflexivity].
Defined.

(** C1, counterexample.  The page shows the queue of "alice"; the server
    pushes a fragment without [#main]; the user clicks the input and types
    "octocat".  The popup is closed and the input reads "octocat", yet
    Enter sends nothing: the commit starts by clearing [#main], which is
    not there, and the listener ends by a TypeError. *)
Lemma enter_without_main_sends_nothing :
  popup_open typed_octocat_without_main = false
  ∧ input_value typed_octocat_without_main = "octocat"
  ∧ old_username typed_octocat_without_main = Some "alice"
  ∧ snd (input_keydown (keypress "Enter" false) typed_octocat_without_main)
    = Throw TypeError
  ∧ sent (handle (InputKeydown "Enter" false) typed_octocat_without_main)
    = [OutUsernameSuggestions "alice"; OutUsernameSuggestions "octocat"].
Proof. vm_compute. repeat split. Qed.

(** Enter also sends nothing where no snapshot is held, whatever the text:
    here "octocat" was put in the input showing "alice" without a keydown
    or a click in it, as a paste from the browser's menu does. *)
Example enter_after_paste_sends_nothing :
  let st := run [FocusMoved OnUsernameInput; InputEdited "octocat"]
                (initial sample_parser "alice") in
  input_value st = "octocat"
  ∧ old_username st = None
  ∧ sent (handle (InputKeydown "Enter" false) st) = sent st.
Proof. vm_compute. repeat split. Qed.

(** C7, in the form the script satisfies.  Committing the name that
    [old_username] holds -- the snapshot, the script's only record of the
    identity the page shows -- is a no-op of [select_username]; through
    Enter (where, with no snapshot held, the listener first takes the
    input's text as the snapshot) and through a click on an option while
    that snapshot is held, nothing is sent and neither the dashboard region
    nor the refresh text changes. *)
Theorem commit_of_current_identity_is_silent :
  (∀ st name,
     strict_eq_old name (old_username st) = true →
     select_username name st = (st, Normal tt))
  ∧ (∀ shift st,
       old_username st = Some (input_value st) ∨ old_username st = None →
       let st' := handle (InputKeydown "Enter" shift) st in
       sent st' = sent st ∧ main_html st' = main_html st
       ∧ refresh_text st' = refresh_text st)
  ∧ (∀ st n r s,
       popup_children st !! n = Some r →
       offers st r s →
       old_username st = Some (name s) →
       handle (OptionClick n) st = st).
Proof.
  split; [|split].
  - intros st name. apply select_username_same.
  - intros shift st Hold.
    destruct (Enter_same shift st) as (? & ? & ? & _); [tauto | done].
  - intros st n r s Hn Hoff Hold. unfold handle. rewrite Hn.
    unfold exec. rewrite (click_elem_offers _ _ s) by done.
    unfold exec. rewrite select_username_same; [reflexivity|].
    rewrite Hold. now apply strict_eq_old_str.
Qed.

Lemma commit_of_current_identity_is_silent_witness :
  strict_eq_old (JStr "alice") (old_username offered_alice) = true
  ∧ select_username (JStr "alice") offered_alice = (offered_alice, Normal tt)
  ∧ old_username offered_alice = Some (input_value offered_alice)
  ∧ sent (handle (InputKeydown "Enter" false) offered_alice) = sent offered_alice
  ∧ popup_children offered_alice !! 0%nat = Some 0%nat
  ∧ offers offered_alice 0 alice
  ∧ handle (OptionClick 0) offered_alice = offered_alice.
Proof.
  assert (offers offered_alice 0 alice) as Hoffers
    by (exists (option_elem alice); split; reflexivity).
  split; [reflexivity|]. split.
  { apply (proj1 commit_of_current_identity_is_silent offered_alice (JStr "alice")).
    reflexivity. }
  split; [reflexivity|]. split.
  { apply (proj1 (proj2 commit_of_current_identity_is_silent) false offered_alice).
    left. reflexivity. }
  split; [reflexivity|]. split; [exact Hoffers|].
  apply (proj2 (proj2 commit_of_current_identity_is_silent) offered_alice 0%nat 0%nat alice);
    [reflexivity | exact Hoffers | reflexivity].
Defined.

(** C7, counterexample.  The page shows "alice"; the user clicks the
    input, types "al" and clicks elsewhere, which cancels: the input shows
    "alice" again and no snapshot is held.  The reply to the query then
    arrives and opens the popup.  A click on the option "alice", the
    identity the page has shown all along, sends [UsernameSelect] for it and
    clears the dashboard under the placeholder. *)
Lemma click_on_current_identity_sends :
  let st := run [OtherClick []; Message "09:01" (UsernameSuggestions [alice; bob])]
                typing_al in
  let st' := handle (OptionClick 0) st in
  sent st = [OutUsernameSuggestions "alice"; OutUsernameSuggestions "al"]
  ∧ old_username st = None
  ∧ input_value st = "alice"
  ∧ shown_options st = offered [alice; bob]
  ∧ sent st' = sent st ++ [OutUsernameSelect (JStr "alice")]
  ∧ refresh_text st' = "getting PR data for user alice"
  ∧ refresh_text st' ≠ refresh_text st.
Proof. vm_compute. repeat split. discriminate. Qed.

(** ** Escape *)

(** The listener's "Esc" branch is Cancel: the text goes back to the
    snapshot, the popup closes, nothing is sent. *)
Lemma Esc_cancels shift st snapshot :
  old_username st = Some snapshot →
  let st' := handle (InputKeydown "Esc" shift) st in
  input_value st' = snapshot ∧ popup_open st' = false ∧ shown_options st' = []
  ∧ old_username st' = None ∧ sent st' = sent st.
Proof.
  intros Hold st'. subst st'. unfold handle, keydown_in_input.
  rewrite input_keydown_Esc. fields.
  rewrite document_keydown_other by reflexivity. fields.
  unfold exec. rewrite set_old_username_run, Hold, close_popup_true. fields.
  unfold popup_open, shown_options. fields.
  rewrite restored_sent. now rewrite (restored_input_value st snapshot).
Qed.

(** A key the listener has no branch for changes nothing once a snapshot is
    held; "Escape", the name browsers give the Escape key, is such a key. *)
Lemma Escape_ignored shift st snapshot :
  old_username st = Some snapshot →
  handle (InputKeydown "Escape" shift) st = st.
Proof.
  intros Hold. unfold handle, keydown_in_input.
  rewrite input_keydown_Escape. fields.
  rewrite document_keydown_other by reflexivity. fields.
  unfold exec. now rewrite set_old_username_run, Hold.
Qed.

(** C3, at the failing input.  In an edit session whose snapshot is "alice"
    and whose text is now "al", a keydown whose [key] is "Escape" leaves the
    page as it is: the text stays "al" and the snapshot stays held. *)
Lemma escape_key_does_not_restore :
  old_username typing_al = Some "alice"
  ∧ input_value typing_al = "al"
  ∧ handle (InputKeydown "Escape" false) typing_al = typing_al
  ∧ input_value (handle (InputKeydown "Escape" false) typing_al) ≠ "alice".
Proof.
  split; [reflexivity|]. split; [reflexivity|].
  rewrite (Escape_ignored false typing_al "alice") by reflexivity.
  split; [reflexivity | vm_compute; discriminate].
Qed.

(** ** confirmSelect without the flag *)

(** C5, in the form the script satisfies.  With nothing highlighted,
    [confirmSelect()] closes and empties the popup, clears the snapshot,
    sends nothing and takes the focus off the input; the input's text is
    left as it is, not restored. *)
Theorem confirm_soft_unhighlighted_closes st :
  current_option st = None →
  let st' := exec (confirmSelect false) st in
  confirmSelect false st = (st', Normal tt)
  ∧ input_value st' = input_value st
  ∧ popup_open st' = false
  ∧ shown_options st' = []
  ∧ old_username st' = None
  ∧ sent st' = sent st
  ∧ active st' ≠ OnUsernameInput.
Proof.
  intros Hcur st'. subst st'. unfold exec.
  rewrite (confirmSelect_unhighlighted _ Hcur), close_popup_false.
  unfold popup_open, shown_options. fields.
  destruct (blurred_fields st) as (_ & _ & _ & _ & ? & _ & _ & _ & _ & ? & _).
  repeat split; try done. apply blurred_active.
Qed.

Lemma confirm_soft_unhighlighted_closes_witness :
  current_option typing_al = None
  ∧ input_value (exec (confirmSelect false) typing_al) = input_value typing_al
  ∧ sent (exec (confirmSelect false) typing_al) = sent typing_al.
Proof.
  split; [reflexivity|].
  destruct (confirm_soft_unhighlighted_closes typing_al eq_refl)
    as (_ & Hin & _ & _ & _ & Hsent & _).
  exact (conj Hin Hsent).
Defined.

(** C5, counterexample.  With snapshot "alice", text "al" and nothing
    highlighted, Cancel puts "alice" back but [confirmSelect()] leaves "al". *)
Lemma confirm_soft_does_not_restore :
  current_option typing_al = None
  ∧ old_username typing_al = Some "alice"
  ∧ input_value (exec (close_popup true) typing_al) = "alice"
  ∧ input_value (exec (confirmSelect false) typing_al) = "al".
Proof. vm_compute. repeat split. Qed.

(** ** The "/" shortcut *)

(** C6, in the form the script satisfies.  On a keydown of "/" reaching
    the document: when the combobox input does not have the focus it is
    focused, its text selected and the key's default suppressed, wherever
    the key was pressed; when the input has the focus -- so for a "/" typed
    into it -- nothing happens. *)
Theorem slash_focuses_input shift st :
  (active st ≠ OnUsernameInput →
   ∃ st' ev, document_keydown (keypress "/" shift) st = (st', Normal ev)
     ∧ active st' = OnUsernameInput
     ∧ input_selected st' = true
     ∧ default_prevented ev = true
     ∧ input_value st' = input_value st
     ∧ old_username st' = old_username st
     ∧ sent st' = sent st)
  ∧ (active st = OnUsernameInput →
     document_keydown (keypress "/" shift) st = (st, Normal (keypress "/" shift))).
Proof.
  unfold document_keydown. mstep. cbn [String.eqb Ascii.eqb Bool.eqb].
  split; intros Hact.
  - destruct (active st) eqn:E; [|congruence| | |];
      eexists _, _; (split; [reflexivity|]); fields; done.
  - now rewrite Hact.
Qed.

Lemma slash_focuses_input_witness :
  active editing_elsewhere ≠ OnUsernameInput
  ∧ ∃ st' ev,
      document_keydown (keypress "/" false) editing_elsewhere = (st', Normal ev)
      ∧ active st' = OnUsernameInput.
Proof.
  split; [vm_compute; discriminate|].
  destruct (proj1 (slash_focuses_input false editing_elsewhere)) as (st' & ev & Hrun & Hact & _).
  - vm_compute; discriminate.
  - exists st', ev. exact (conj Hrun Hact).
Defined.

(** C6, counterexample.  A "/" keydown coming from another editable field
    is not left alone: the focus moves to the combobox input. *)
Lemma slash_steals_focus_from_editable_field :
  active editing_elsewhere = OnOther true
  ∧ active (handle (OtherKeydown "/" false) editing_elsewhere) = OnUsernameInput
  ∧ input_selected (handle (OtherKeydown "/" false) editing_elsewhere) = true.
Proof. vm_compute. repeat split. Qed.

(** ** Navigation *)

Lemma with_elems_id st : with_elems (elems st) st = st.
Proof. now destruct st. Qed.

Lemma for_of_on_elem f l st :
  for_of l (λ i, on_elem i f) st =
    (with_elems (foldl (λ es i, alter f i es) (elems st) l) st, Normal tt).
Proof.
  revert st. induction l as [|i l IH]; intros st.
  - cbn [for_of foldl]. now rewrite with_elems_id.
  - cbn [for_of foldl]. cbv [mbind M_bind]. unfold on_elem at 1. mstep.
    now rewrite IH.
Qed.

Lemma changeSelection_empty f st :
  available_options st = [] → changeSelection f st = (st, Normal tt).
Proof. intros Hav. unfold changeSelection. mstep. now rewrite Hav. Qed.

Lemma changeSelection_moves (g : option Z → Z → Z) f st :
  available_options st ≠ [] →
  (∀ s, f s = (with_current_option
                 (Some (g (current_option s) (Z.of_nat (length (available_options s))))) s,
               Normal tt)) →
  let n := Z.of_nat (length (available_options st)) in
  let c := wrapped n (g (current_option st) n) in
  (0 ≤ c < n)%Z →
  ∃ st', changeSelection f st = (st', Normal tt)
         ∧ current_option st' = Some c
         ∧ same_but_highlight st st'.
Proof.
  intros Hav Hf n c Hc.
  destruct (lookup_lt_is_Some_2 (available_options st) (Z.to_nat c)) as [r Hr]; [lia|].
  unfold changeSelection. cbv [mbind M_bind]. unfold read at 1.
  destruct (available_options st) as [|r0 l] eqn:Eav; [done|]. 
  cbn [length Nat.eqb]. rewrite for_of_on_elem, Hf. mstep. rewrite Eav.
  change (Z.of_nat (length (r0 :: l))) with n.
  cbv [num default from_option id].
  subst c. unfold wrapped in *. subst n. cbn [length] in *.
  destruct (g (current_option st) _ >=? _)%Z; [|destruct (g (current_option st) _ <? 0)%Z];
    mstep; rewrite ?Eav; unfold js_index;
    (match goal with |- context [(?x <? 0)%Z] => destruct (Z.ltb_spec x 0); [lia|] end);
    rewrite Hr; unfold on_elem; mstep;
    eexists; (split; [reflexivity|]); unfold same_but_highlight; fields; done.
Qed.

Lemma selectNext_moves st :
  available_options st ≠ [] →
  let n := Z.of_nat (length (available_options st)) in
  let c := wrapped n (next_of (current_option st) n) in
  (0 ≤ c < n)%Z →
  ∃ st', selectNext st = (st', Normal tt)
         ∧ current_option st' = Some c
         ∧ same_but_highlight st st'.
Proof.
  intros Hav. apply (changeSelection_moves next_of); [done|].
  intros s. mstep. unfold next_of. now destruct (current_option s).
Qed.

Lemma selectPrev_moves st :
  available_options st ≠ [] →
  let n := Z.of_nat (length (available_options st)) in
  let c := wrapped n (prev_of (current_option st) n) in
  (0 ≤ c < n)%Z →
  ∃ st', selectPrev st = (st', Normal tt)
         ∧ current_option st' = Some c
         ∧ same_but_highlight st st'.
Proof.
  intros Hav. apply (changeSelection_moves prev_of); [done|].
  intros s. mstep. unfold prev_of. now destruct (current_option s).
Qed.

Lemma wrapped_next n i : (0 ≤ i < n)%Z → wrapped n (i + 1) = ((i + 1) mod n)%Z.
Proof.
  intros Hi. unfold wrapped.
  destruct (Z.geb_spec (i + 1) n).
  - assert (i + 1 = n)%Z as -> by lia. rewrite Z.sub_diag, Z_mod_same_full. done.
  - destruct (Z.ltb_spec (i + 1) 0); [lia|]. now rewrite Z.mod_small by lia.
Qed.

Lemma wrapped_prev n i : (0 ≤ i < n)%Z → wrapped n (i - 1) = ((i - 1 + n) mod n)%Z.
Proof.
  intros Hi. unfold wrapped.
  destruct (Z.geb_spec (i - 1) n); [lia|].
  destruct (Z.ltb_spec (i - 1) 0).
  - now rewrite Z.mod_small by lia.
  - replace (i - 1 + n)%Z with (i - 1 + 1 * n)%Z by lia.
    rewrite Z_mod_plus_full. now rewrite Z.mod_small by lia.
Qed.

(** C9.  On a non-empty option list of length [n], [selectNext] takes the
    highlight from [i] to [(i+1) mod n] and [selectPrev] to [(i-1+n) mod n],
    both within [0, n-1]; from no highlight they give [0] and [n-1]; both
    complete normally and touch nothing but the highlight and the options'
    selected marks.  On an empty option list both do nothing. *)
Theorem navigation_wraps :
  (∀ st n,
     n = Z.of_nat (length (available_options st)) →
     (0 < n)%Z →
     (∀ i, current_option st = Some i → (0 ≤ i < n)%Z →
        (∃ st', selectNext st = (st', Normal tt)
                ∧ current_option st' = Some ((i + 1) mod n)%Z
                ∧ same_but_highlight st st')
        ∧ (∃ st', selectPrev st = (st', Normal tt)
                  ∧ current_option st' = Some ((i - 1 + n) mod n)%Z
                  ∧ same_but_highlight st st')
        ∧ (0 ≤ (i + 1) mod n < n)%Z ∧ (0 ≤ (i - 1 + n) mod n < n)%Z)
     ∧ (current_option st = None →
        (∃ st', selectNext st = (st', Normal tt)
                ∧ current_option st' = Some 0%Z
                ∧ same_but_highlight st st')
        ∧ (∃ st', selectPrev st = (st', Normal tt)
                  ∧ current_option st' = Some (n - 1)%Z
                  ∧ same_but_highlight st st')))
  ∧ (∀ st,
       available_options st = [] →
       selectNext st = (st, Normal tt) ∧ selectPrev st = (st, Normal tt)).
Proof.
  split; [|intros st Hav; split; now apply changeSelection_empty].
  intros st n Hn Hpos.
  assert (available_options st ≠ []) as Hav.
  { intros Heq. rewrite Heq in Hn. cbn in Hn. lia. }
  split.
  - intros i Hcur Hi.
    pose proof (selectNext_moves st Hav) as Hnext.
    pose proof (selectPrev_moves st Hav) as Hprev.
    rewrite <- Hn, Hcur in Hnext, Hprev. cbn [next_of prev_of] in Hnext, Hprev.
    rewrite wrapped_next in Hnext by done. rewrite wrapped_prev in Hprev by done.
    pose proof (Z.mod_pos_bound (i + 1) n Hpos).
    pose proof (Z.mod_pos_bound (i - 1 + n) n Hpos).
    repeat split; auto; lia.
  - intros Hcur.
    pose proof (selectNext_moves st Hav) as Hnext.
    pose proof (selectPrev_moves st Hav) as Hprev.
    rewrite <- Hn, Hcur in Hnext, Hprev. cbn [next_of prev_of] in Hnext, Hprev.
    unfold wrapped in Hnext, Hprev.
    destruct (Z.geb_spec 0 n); [lia|]. destruct (Z.ltb_spec 0 0); [lia|].
    destruct (Z.geb_spec (n - 1) n); [lia|]. destruct (Z.ltb_spec (n - 1) 0); [lia|].
    split; [apply Hnext | apply Hprev]; lia.
Qed.

Lemma navigation_wraps_witness :
  2%Z = Z.of_nat (length (available_options highlighted_bob))
  ∧ (0 < 2)%Z
  ∧ current_option highlighted_bob = Some 1%Z
  ∧ (0 ≤ 1 < 2)%Z
  ∧ ∃ st', selectNext highlighted_bob = (st', Normal tt)
           ∧ current_option st' = Some ((1 + 1) mod 2)%Z.
Proof.
  split; [reflexivity|]. split; [lia|]. split; [reflexivity|]. split; [lia|].
  assert (0 < 2)%Z as Hpos by lia. assert (0 ≤ 1 < 2)%Z as Hin by lia.
  destruct (proj1 (proj1 navigation_wraps highlighted_bob 2%Z eq_refl Hpos) 1%Z eq_refl Hin)
    as ((st' & Hrun & Hcur & _) & _).
  exists st'. exact (conj Hrun Hcur).
Defined.

(** ** Inbound frames *)

Lemma on_message_unrecognised now st data k :
  get_field data "key" = Normal k →
  recognised k = false →
  on_message now (JSON data) st =
    (with_console (console st ++ [Log "unknown message:" [data]]) st, Normal tt).
Proof.
  intros Hk Hrec. unfold recognised in Hrec.
  apply orb_false_elim in Hrec as [Hrec H3]. apply orb_false_elim in Hrec as [H1 H2].
  unfold on_message. mstep. now rewrite Hk, H1, H2, H3.
Qed.

Lemma on_message_unreadable now st data e :
  get_field data "key" = Throw e →
  on_message now (JSON data) st = (st, Throw e).
Proof. intros Hk. unfold on_message. mstep. now rewrite Hk. Qed.

Lemma on_message_UpdatePage now html st :
  on_message now (UpdatePage html) st =
    if main_exists st then
      (with_refresh_text ("last refresh: " +:+ now)
         (with_main_exists (fragment_has_main st html)
            (with_main_html html
               (with_active (main_removed (active st))
                  (with_console (console st ++ [Log "replacing main" []]) st)))),
       Normal tt)
    else (with_console (console st ++ [Log "replacing main" []]) st, Throw TypeError).
Proof.
  unfold on_message, UpdatePage, set_main_outerHTML, update_last_refreshed. mstep.
  cbn [get_field own_prop String.eqb Ascii.eqb Bool.eqb default from_option id is_str
       to_DOMString ToString].
  now destruct (main_exists st).
Qed.

(** C2, in the form the script satisfies.  A frame that parses to a value
    whose [key] matches no case is logged and dropped: the listener
    completes normally and changes nothing but the console.  A frame that
    is not JSON makes the listener throw [JSON.parse]'s SyntaxError, and
    one whose value has no readable [key] (it is [null]) a TypeError; the
    page is as it was before. *)
Theorem unrecognised_frame_is_logged_and_dropped :
  (∀ now st data k,
     get_field data "key" = Normal k →
     recognised k = false →
     on_message now (JSON data) st =
       (with_console (console st ++ [Log "unknown message:" [data]]) st, Normal tt))
  ∧ (∀ now st, on_message now NotJSON st = (st, Throw SyntaxError))
  ∧ (∀ now st data e,
       get_field data "key" = Throw e →
       on_message now (JSON data) st = (st, Throw e)).
Proof.
  split; [exact on_message_unrecognised|]. split; [reflexivity|].
  exact on_message_unreadable.
Qed.

Lemma unrecognised_frame_is_logged_and_dropped_witness :
  get_field (JObj [("key", JStr "Ping")]) "key" = Normal (JStr "Ping")
  ∧ recognised (JStr "Ping") = false
  ∧ on_message "09:00" (JSON (JObj [("key", JStr "Ping")])) offered_alice =
      (with_console
         (console offered_alice ++ [Log "unknown message:" [JObj [("key", JStr "Ping")]]])
         offered_alice, Normal tt).
Proof.
  split; [reflexivity|]. split; [reflexivity|].
  apply (proj1 unrecognised_frame_is_logged_and_dropped "09:00" offered_alice _ (JStr "Ping"));
    reflexivity.
Defined.

(** C2, counterexample.  On a frame that is not JSON, and on the frame
    "null", the listener ends by throwing. *)
Lemma malformed_frame_throws :
  on_message "09:00" NotJSON offered_alice = (offered_alice, Throw SyntaxError)
  ∧ on_message "09:00" (JSON JNull) offered_alice = (offered_alice, Throw TypeError).
Proof. split; reflexivity. Qed.

(** ** Suggestions *)

Lemma alter_last {A} (f : A → A) (l : list A) (x : A) :
  alter f (length l) (l ++ [x]) = l ++ [f x].
Proof.
  rewrite alter_app_r_alt by lia. now rewrite Nat.sub_diag.
Qed.

Lemma add_suggestion_run s st :
  ∃ st', add_suggestion (suggestion_value s) st = (st', Normal tt)
         ∧ elems st' = elems st ++ [option_elem s]
         ∧ available_options st' = available_options st ++ [length (elems st)]
         ∧ popup_children st' = popup_children st ++ [length (elems st)]
         ∧ same_but_options st st'.
Proof.
  unfold add_suggestion, createElement_li, on_elem. mstep.
  cbn [suggestion_value get_field own_prop String.eqb Ascii.eqb Bool.eqb
       default from_option id ToString to_DOMString].
  eexists. split; [reflexivity|]. fields.
  split; [|unfold same_but_options; fields; done].
  rewrite !alter_last. reflexivity.
Qed.

Lemma same_but_options_trans st1 st2 st3 :
  same_but_options st1 st2 → same_but_options st2 st3 → same_but_options st1 st3.
Proof. unfold same_but_options. intuition congruence. Qed.

Lemma for_of_add_suggestion l st :
  ∃ st', for_of (suggestion_value <$> l) add_suggestion st = (st', Normal tt)
         ∧ elems st' = elems st ++ (option_elem <$> l)
         ∧ available_options st' = available_options st ++ seq (length (elems st)) (length l)
         ∧ popup_children st' = popup_children st ++ seq (length (elems st)) (length l)
         ∧ same_but_options st st'.
Proof.
  revert st. induction l as [|s l IH]; intros st.
  - exists st. cbn. rewrite !app_nil_r. unfold same_but_options. done.
  - destruct (add_suggestion_run s st) as (st1 & Hrun1 & He1 & Ha1 & Hp1 & Hs1).
    destruct (IH st1) as (st2 & Hrun2 & He2 & Ha2 & Hp2 & Hs2).
    exists st2. cbn [fmap list_fmap for_of]. cbv [mbind M_bind].
    rewrite Hrun1. change (list_fmap _ _ suggestion_value l) with (suggestion_value <$> l).
    rewrite Hrun2. split; [reflexivity|].
    rewrite He2, Ha2, Hp2, He1, Ha1, Hp1, length_app. cbn [length seq].
    rewrite Nat.add_1_r, <- !app_assoc. 
    refine (conj _ (conj _ (conj _ _))); try done.
    eapply same_but_options_trans; eauto.
Qed.

Lemma lookup_appended {A} (es xs : list A) :
  (λ r, (es ++ xs) !! r) <$> seq (length es) (length xs) = Some <$> xs.
Proof.
  apply list_eq. intros i. rewrite !list_lookup_fmap.
  destruct (decide (i < length xs)%nat) as [Hi|Hi].
  - rewrite lookup_seq_lt by done. cbn.
    rewrite lookup_app_r by lia. replace (length es + i - length es)%nat with i by lia.
    destruct (lookup_lt_is_Some_2 xs i Hi) as [x Hx]. now rewrite Hx.
  - rewrite lookup_seq_ge by lia. now rewrite lookup_ge_None_2 by lia.
Qed.

Lemma apply_suggestions_run l st :
  l ≠ [] →
  ∃ st', apply_username_suggestions (JArr (suggestion_value <$> l)) st = (st', Normal tt)
         ∧ current_option st' = None
         ∧ popup_display st' = "flex"
         ∧ elems st' = elems st ++ (option_elem <$> l)
         ∧ available_options st' = seq (length (elems st)) (length l)
         ∧ popup_children st' = seq (length (elems st)) (length l)
         ∧ old_username st' = old_username st
         ∧ input_value st' = input_value st
         ∧ sent st' = sent st
         ∧ main_html st' = main_html st
         ∧ refresh_text st' = refresh_text st
         ∧ main_exists st' = main_exists st.
Proof.
  intros Hl. unfold apply_username_suggestions. mstep.
  cbn [js_length js_iterate]. rewrite length_fmap.
  destruct l as [|s l]; [done|]. cbn [length Z.of_nat is_zero].
  change (Z.of_nat (S (length l))) with (Z.pos (Pos.of_succ_nat (length l))).
  cbv beta iota.
  match goal with
  | |- context [for_of _ add_suggestion ?s0] =>
      destruct (for_of_add_suggestion (s :: l) s0) as (st' & Hrun & He & Ha & Hp & Hs)
  end.
  rewrite Hrun. exists st'. split; [reflexivity|].
  destruct Hs as (? & ? & ? & ? & ? & ? & ? & ? & ? & ? & ?).
  fields_everywhere. repeat split; done.
Qed.

Lemma on_message_suggestions now l st :
  on_message now (UsernameSuggestions l) st =
    apply_username_suggestions (JArr (suggestion_value <$> l)) st.
Proof. reflexivity. Qed.

Lemma suggestions_replace now l st :
  l ≠ [] →
  let st' := handle (Message now (UsernameSuggestions l)) st in
  options st' = offered l
  ∧ shown_options st' = offered l
  ∧ current_option st' = None
  ∧ popup_open st' = true
  ∧ old_username st' = old_username st
  ∧ input_value st' = input_value st
  ∧ sent st' = sent st.
Proof.
  intros Hl st'. subst st'. unfold handle, exec. rewrite on_message_suggestions.
  destruct (apply_suggestions_run l st Hl) as (st' & -> & Hcur & Hd & He & Ha & Hp & ? & ? & ? & _).
  unfold options, shown_options, popup_open, offered. fields.
  rewrite Ha, Hp, He, Hd, <- (length_fmap option_elem), lookup_appended, <- list_fmap_compose.
  done.
Qed.

Lemma no_suggestions_no_change now st :
  handle (Message now (UsernameSuggestions [])) st = st.
Proof. reflexivity. Qed.

(** C10, in the form the script satisfies.  When the later of two replies
    is not empty it wins: after reply [a], whatever happened in between, and
    then reply [b], the options, the popup's content, the highlight and the
    popup's being open are what reply [b] alone makes them -- the options
    are those of [b] and nothing is highlighted.  An empty later reply
    changes nothing, so the earlier reply's options stay. *)
Theorem later_reply_wins :
  (∀ now_a now_b a b between st,
     b ≠ [] →
     let after_both :=
       run ([Message now_a (UsernameSuggestions a)] ++ between
            ++ [Message now_b (UsernameSuggestions b)]) st in
     let after_b := handle (Message now_b (UsernameSuggestions b)) st in
     options after_both = options after_b
     ∧ shown_options after_both = shown_options after_b
     ∧ current_option after_both = current_option after_b
     ∧ popup_open after_both = popup_open after_b
     ∧ options after_both = offered b
     ∧ current_option after_both = None)
  ∧ (∀ now st, handle (Message now (UsernameSuggestions [])) st = st).
Proof.
  split; [|intros; apply no_suggestions_no_change].
  intros now_a now_b a b between st Hb after_both after_b. subst after_both after_b.
  unfold run. rewrite !foldl_app. cbn [foldl].
  match goal with
  | |- context [handle (Message now_b (UsernameSuggestions b)) (foldl ?f ?s ?l)] =>
      set (st1 := foldl f s l)
  end.
  destruct (suggestions_replace now_b b st1 Hb) as (-> & -> & -> & -> & _).
  destruct (suggestions_replace now_b b st Hb) as (-> & -> & -> & -> & _).
  done.
Qed.

Lemma later_reply_wins_witness :
  [bob] ≠ []
  ∧ options (run ([Message "09:00" (UsernameSuggestions [alice; bob])]
                  ++ [InputKeydown "ArrowDown" false]
                  ++ [Message "09:01" (UsernameSuggestions [bob])]) (initial sample_parser "carol"))
    = options (handle (Message "09:01" (UsernameSuggestions [bob])) (initial sample_parser "carol")).
Proof.
  split; [discriminate|].
  exact (proj1 (proj1 later_reply_wins "09:00" "09:01" [alice; bob] [bob]
                  [InputKeydown "ArrowDown" false] (initial sample_parser "carol") ltac:(discriminate))).
Defined.

(** C10, counterexample.  An empty reply arriving after a reply that
    offered alice does not win: alice stays offered, whereas the empty reply
    alone leaves no option. *)
Lemma empty_later_reply_does_not_win :
  options (run [Message "09:00" (UsernameSuggestions [alice]);
                Message "09:01" (UsernameSuggestions [])] (initial sample_parser "carol"))
  = [Some (option_elem alice)]
  ∧ options (run [Message "09:01" (UsernameSuggestions [])] (initial sample_parser "carol")) = [].
Proof. vm_compute. repeat split. Qed.

(** ** The invariant *)

Section Preserved.
Context (P : page → Prop).

Lemma preserved_ret {A} (a : A) : preserved P (mret a).
Proof. intros st H. exact H. Qed.

Lemma preserved_bind {A B} (m : M A) (f : A → M B) :
  preserved P m → (∀ a, preserved P (f a)) → preserved P (m ≫= f).
Proof.
  intros Hm Hf st H. specialize (Hm st H). cbv [mbind M_bind].
  destruct (m st) as [st1 [a|e]]; [apply Hf|]; exact Hm.
Qed.

Lemma preserved_read {A} (f : page → A) : preserved P (read f).
Proof. intros st H. exact H. Qed.

Lemma preserved_lift {A} (c : completion A) : preserved P (lift c).
Proof. intros st H. exact H. Qed.

Lemma preserved_throw {A} (e : exn) : preserved P (throw (A:=A) e).
Proof. intros st H. exact H. Qed.

Lemma preserved_update (f : page → page) :
  (∀ st, P st → P (f st)) → preserved P (update f).
Proof. intros Hf st H. apply Hf, H. Qed.

Lemma preserved_dispatch {A} (m : M A) : preserved P m → preserved P (dispatch m).
Proof. intros Hm st H. apply Hm, H. Qed.

Lemma preserved_for_of {A} (l : list A) (body : A → M unit) :
  (∀ x, preserved P (body x)) → preserved P (for_of l body).
Proof.
  intros Hbody. induction l as [|x l IH]; cbn [for_of].
  - apply preserved_ret.
  - apply preserved_bind; [apply Hbody | intros _; exact IH].
Qed.
End Preserved.

Lemma invariant_frame st st' :
  current_option st' = current_option st →
  available_options st' = available_options st →
  popup_display st' = popup_display st ∨ popup_display st' = "none" →
  combobox_invariant st → combobox_invariant st'.
Proof.
  unfold combobox_invariant, highlight_valid, popup_open.
  intros -> -> Hd [Hv He]. split; [exact Hv|].
  intros Hav. destruct (He Hav) as [Hp Hc]. split; [|exact Hc].
  destruct Hd as [-> | ->]; [exact Hp | reflexivity].
Qed.

Create HintDb keeps.

Ltac frame_update :=
  apply preserved_update; intros ? ?;
  first [ eassumption
        | eapply invariant_frame; [| | |eassumption];
          [reflexivity | reflexivity | first [left; reflexivity | right; reflexivity]] ].

Ltac keeps :=
  repeat match goal with
    | |- preserved _ (mret _) => apply preserved_ret
    | |- preserved _ (read _) => apply preserved_read
    | |- preserved _ (lift _) => apply preserved_lift
    | |- preserved _ (throw _) => apply preserved_throw
    | |- preserved _ (dispatch _) => apply preserved_dispatch
    | |- preserved _ (mbind _ _) => apply preserved_bind; [|intros ?]
    | |- preserved _ (update _) => frame_update
    | |- preserved _ (for_of _ _) => apply preserved_for_of; intros ?
    | |- preserved _ (if ?b then _ else _) => destruct b
    | |- preserved _ (match ?x with _ => _ end) => destruct x
    | |- preserved _ _ => solve [auto with keeps]
    end.

Lemma console_log_keeps text args : preserved combobox_invariant (console_log text args).
Proof. unfold console_log. keeps. Qed.

Lemma socket_send_keeps msg : preserved combobox_invariant (socket_send msg).
Proof. unfold socket_send. keeps. Qed.

Lemma on_elem_keeps r f : preserved combobox_invariant (on_elem r f).
Proof. unfold on_elem. keeps. Qed.

Lemma set_input_value_keeps s : preserved combobox_invariant (set_input_value s).
Proof.
  unfold set_input_value. apply preserved_update. intros st H.
  destruct (String.eqb s (input_value st)); exact H.
Qed.

Lemma input_blur_keeps : preserved combobox_invariant input_blur.
Proof.
  unfold input_blur. apply preserved_update. intros st H.
  destruct (active st); exact H.
Qed.

Lemma set_main_innerHTML_keeps html : preserved combobox_invariant (set_main_innerHTML html).
Proof. unfold set_main_innerHTML. keeps. Qed.

Lemma set_main_outerHTML_keeps v : preserved combobox_invariant (set_main_outerHTML v).
Proof. unfold set_main_outerHTML. keeps. Qed.

#[local] Hint Resolve console_log_keeps socket_send_keeps on_elem_keeps
  set_input_value_keeps input_blur_keeps set_main_innerHTML_keeps
  set_main_outerHTML_keeps : keeps.

Lemma close_popup_keeps reset : preserved combobox_invariant (close_popup reset).
Proof. unfold close_popup. keeps. Qed.

#[local] Hint Resolve close_popup_keeps : keeps.

Lemma select_username_keeps name : preserved combobox_invariant (select_username name).
Proof. unfold select_username. keeps. Qed.

Lemma set_username_keeps name : preserved combobox_invariant (set_username name).
Proof. unfold set_username. keeps. Qed.

#[local] Hint Resolve select_username_keeps set_username_keeps : keeps.

Lemma click_elem_keeps r : preserved combobox_invariant (click_elem r).
Proof. unfold click_elem. keeps. Qed.

#[local] Hint Resolve click_elem_keeps : keeps.

Lemma confirmSelect_keeps enter_pressed :
  preserved combobox_invariant (confirmSelect enter_pressed).
Proof. unfold confirmSelect. keeps. Qed.

#[local] Hint Resolve confirmSelect_keeps : keeps.

Lemma moved_keeps st st' c :
  combobox_invariant st →
  current_option st' = Some c →
  (0 ≤ c < Z.of_nat (length (available_options st)))%Z →
  same_but_highlight st st' →
  combobox_invariant st'.
Proof.
  intros [_ He] Hcur Hc (Hav & _ & _ & _ & _ & Hd & _).
  unfold combobox_invariant, highlight_valid, popup_open.
  rewrite Hcur, Hav, Hd. split; [exact Hc|].
  intros Hnil. rewrite Hnil in Hc. cbn in Hc. lia.
Qed.

Lemma wrapped_next_of_valid st :
  available_options st ≠ [] →
  highlight_valid st →
  let n := Z.of_nat (length (available_options st)) in
  (0 ≤ wrapped n (next_of (current_option st) n) < n)%Z.
Proof.
  intros Hav Hv n.
  assert (0 < n)%Z by (subst n; destruct (available_options st); [done | cbn; lia]).
  unfold highlight_valid in Hv. fold n in Hv. unfold wrapped, next_of.
  destruct (current_option st) as [i|];
    repeat match goal with
           | |- context [(?a >=? ?b)%Z] => destruct (Z.geb_spec a b)
           | |- context [(?a <? ?b)%Z] => destruct (Z.ltb_spec a b)
           end; lia.
Qed.

Lemma wrapped_prev_of_valid st :
  available_options st ≠ [] →
  highlight_valid st →
  let n := Z.of_nat (length (available_options st)) in
  (0 ≤ wrapped n (prev_of (current_option st) n) < n)%Z.
Proof.
  intros Hav Hv n.
  assert (0 < n)%Z by (subst n; destruct (available_options st); [done | cbn; lia]).
  unfold highlight_valid in Hv. fold n in Hv. unfold wrapped, prev_of.
  destruct (current_option st) as [i|];
    repeat match goal with
           | |- context [(?a >=? ?b)%Z] => destruct (Z.geb_spec a b)
           | |- context [(?a <? ?b)%Z] => destruct (Z.ltb_spec a b)
           end; lia.
Qed.

Lemma selectNext_keeps : preserved combobox_invariant selectNext.
Proof.
  intros st Hinv. destruct (decide (available_options st = [])) as [Hnil|Hav].
  - unfold selectNext. now rewrite changeSelection_empty.
  - pose proof (wrapped_next_of_valid st Hav (proj1 Hinv)) as Hc.
    destruct (selectNext_moves st Hav Hc) as (st' & -> & Hcur & Hsame).
    exact (moved_keeps st st' _ Hinv Hcur Hc Hsame).
Qed.

Lemma selectPrev_keeps : preserved combobox_invariant selectPrev.
Proof.
  intros st Hinv. destruct (decide (available_options st = [])) as [Hnil|Hav].
  - unfold selectPrev. now rewrite changeSelection_empty.
  - pose proof (wrapped_prev_of_valid st Hav (proj1 Hinv)) as Hc.
    destruct (selectPrev_moves st Hav Hc) as (st' & -> & Hcur & Hsame).
    exact (moved_keeps st st' _ Hinv Hcur Hc Hsame).
Qed.

#[local] Hint Resolve selectNext_keeps selectPrev_keeps : keeps.

Lemma set_old_username_keeps : preserved combobox_invariant set_old_username.
Proof. unfold set_old_username. keeps. Qed.

Lemma ask_suggestions_keeps : preserved combobox_invariant ask_suggestions.
Proof. unfold ask_suggestions. keeps. Qed.

#[local] Hint Resolve set_old_username_keeps ask_suggestions_keeps : keeps.

Lemma input_keydown_keeps ev : preserved combobox_invariant (input_keydown ev).
Proof. unfold input_keydown. keeps. Qed.

Lemma document_keydown_keeps ev : preserved combobox_invariant (document_keydown ev).
Proof. unfold document_keydown, input_focus, input_select. keeps. Qed.

Lemma document_click_keeps target : preserved combobox_invariant (document_click target).
Proof. unfold document_click. keeps. Qed.

Lemma input_click_keeps : preserved combobox_invariant input_click.
Proof. unfold input_click. keeps. Qed.

Lemma input_input_keeps : preserved combobox_invariant input_input.
Proof. unfold input_input. keeps. Qed.

Lemma reset_button_click_keeps : preserved combobox_invariant reset_button_click.
Proof. unfold reset_button_click. keeps. Qed.

#[local] Hint Resolve input_keydown_keeps document_keydown_keeps document_click_keeps
  input_click_keeps input_input_keeps reset_button_click_keeps : keeps.

Lemma keydown_in_input_keeps ev st :
  combobox_invariant st → combobox_invariant (fst (keydown_in_input ev st)).
Proof.
  intros Hinv. unfold keydown_in_input.
  pose proof (input_keydown_keeps ev st Hinv) as H1.
  destruct (input_keydown ev st) as [st1 [ev1|e]]; cbn [fst] in H1.
  - destruct (propagation_stopped ev1); [exact H1|].
    pose proof (document_keydown_keeps ev1 st1 H1) as H2.
    now destruct (document_keydown ev1 st1) as [st2 [ev2|e2]].
  - pose proof (document_keydown_keeps ev st1 H1) as H2.
    now destruct (document_keydown ev st1) as [st2 [ev2|e2]].
Qed.

Lemma on_message_keeps now f :
  protocol_frame f → preserved combobox_invariant (on_message now f).
Proof.
  intros [-> | [(data & -> & Hkey) | [(c & ->) | [(n & ->) | (l & ->)]]]] st Hinv.
  - exact Hinv.
  - destruct (get_field data "key") as [k|e] eqn:Hk.
    + now rewrite (on_message_unrecognised now st data k Hk Hkey).
    + now rewrite (on_message_unreadable now st data e Hk).
  - rewrite on_message_UpdatePage. destruct (main_exists st); exact Hinv.
  - exact (set_username_keeps (JStr n) st Hinv).
  - destruct l as [|s l]; [exact Hinv|].
    rewrite on_message_suggestions.
    destruct (apply_suggestions_run (s :: l) st) as (st' & -> & Hcur & Hd & He & Ha & _);
      [done|].
    unfold combobox_invariant, highlight_valid. cbn [fst]. rewrite Hcur, Ha.
    split; [done|]. discriminate.
Qed.

Lemma handle_keeps e st :
  protocol_event e → combobox_invariant st → combobox_invariant (handle e st).
Proof.
  intros He Hinv. destruct e as [now f|target|k shift|text|n|target|target|k shift|to];
    cbn [handle].
  - now apply on_message_keeps.
  - revert st Hinv. change (preserved combobox_invariant
      (dispatch input_click ;; dispatch (document_click target))). keeps.
  - now apply keydown_in_input_keeps.
  - apply input_input_keeps. exact Hinv.
  - destruct (popup_children st !! n); [now apply click_elem_keeps | exact Hinv].
  - revert st Hinv. change (preserved combobox_invariant
      (dispatch reset_button_click ;; dispatch (document_click target))). keeps.
  - now apply document_click_keeps.
  - now apply document_keydown_keeps.
  - destruct (focusable to st); exact Hinv.
Qed.

(** C8.  In every state reachable from the page as loaded -- popup closed,
    no option, no highlight -- by keys, clicks, edits, the protocol's
    frames and [confirmSelect()], the highlight is [null] or a valid index
    into the option list, and when the option list is empty the popup is
    closed and the highlight is [null]. *)
Theorem reachable_invariant st : reachable st → combobox_invariant st.
Proof.
  induction 1 as [parser shown | e st _ IH He | st _ IH].
  - split; [exact I|]. intros _. split; reflexivity.
  - now apply handle_keeps.
  - now apply confirmSelect_keeps.
Qed.

Lemma reachable_highlighted_bob : reachable highlighted_bob.
Proof.
  change highlighted_bob with
    (handle (InputKeydown "ArrowUp" false)
       (handle (Message "09:00" (UsernameSuggestions [alice; bob]))
          (handle (InputClick input_in_form) (initial sample_parser "alice")))).
  apply reachable_event; [|exact I].
  apply reachable_event; [|do 4 right; eexists; reflexivity].
  apply reachable_event; [|exact I].
  apply reachable_initial.
Defined.

Lemma reachable_invariant_witness :
  reachable highlighted_bob ∧ combobox_invariant highlighted_bob.
Proof.
  split; [exact reachable_highlighted_bob|].
  exact (reachable_invariant highlighted_bob reachable_highlighted_bob).
Defined.

(** * Further properties *)

(** ** Server pushes and the reset button *)


(** X2.  An [UpdatePage] frame leaves the combobox alone -- options,
    highlight, snapshot, text, popup -- and sends nothing.  With [#main] in
    the document the fragment is put in its place as it is and the refresh
    text is stamped with the time; whether the document has a [#main]
    afterwards is up to the fragment, and a focus on or inside the old
    [#main] falls to the body.  With [#main] gone the listener throws, and
    neither the dashboard nor the refresh text changes. *)
Theorem UpdatePage_leaves_combobox now st main_contents :
  let st' := handle (Message now (UpdatePage main_contents)) st in
  current_option st' = current_option st
  ∧ available_options st' = available_options st
  ∧ elems st' = elems st
  ∧ old_username st' = old_username st
  ∧ input_value st' = input_value st
  ∧ input_selected st' = input_selected st
  ∧ popup_display st' = popup_display st
  ∧ popup_children st' = popup_children st
  ∧ sent st' = sent st
  ∧ if main_exists st
    then snd (on_message now (UpdatePage main_contents) st) = Normal tt
         ∧ main_html st' = main_contents
         ∧ main_exists st' = fragment_has_main st main_contents
         ∧ refresh_text st' = "last refresh: " +:+ now
         ∧ active st' = main_removed (active st)
    else snd (on_message now (UpdatePage main_contents) st) = Throw TypeError
         ∧ main_html st' = main_html st
         ∧ main_exists st' = false
         ∧ refresh_text st' = refresh_text st
         ∧ active st' = active st.
Proof.
  intros st'. subst st'. unfold handle, exec. rewrite on_message_UpdatePage.
  destruct (main_exists st) eqn:Hm; fields; repeat split; done.
Qed.

(** X3.  A click on the reset button, wherever the button sits in the
    document: the popup is hidden and emptied and the snapshot dropped; the
    input's text is not touched -- neither reset nor restored.  With [#main]
    in the document the dashboard is cleared under "getting your PR data"
    and exactly one [ResetUsername] is sent; with [#main] gone the listener
    throws before it sends, and nothing is sent. *)
Theorem reset_sends_once_and_keeps_text target st :
  let st' := handle (ResetClick target) st in
  input_value st' = input_value st
  ∧ old_username st' = None
  ∧ popup_open st' = false
  ∧ shown_options st' = []
  ∧ available_options st' = available_options st
  ∧ current_option st' = current_option st
  ∧ if main_exists st
    then sent st' = sent st ++ [OutResetUsername]
         ∧ main_html st' = ""
         ∧ refresh_text st' = "getting your PR data"
    else sent st' = sent st
         ∧ main_html st' = main_html st
         ∧ refresh_text st' = refresh_text st.
Proof.
  intros st'. subst st'.
  unfold handle, exec, document_click, reset_button_click, set_main_innerHTML.
  cbv [mbind M_bind dispatch exec]. rewrite close_popup_false. mstep.
  destruct (main_exists st) eqn:Hm; fields;
    (destruct (within_combobox 10 target); fields;
     [ unfold popup_open, shown_options; fields; repeat split
     | rewrite close_popup_true; unfold restored, popup_open, shown_options; fields;
       repeat split ]).
Qed.

(** ** Clicks outside the combobox *)

Lemma within_combobox_spec budget target :
  within_combobox budget target = true
  ↔ ∃ i t, (i < budget)%nat ∧ target !! i = Some t ∧ is_combobox_node t = true.
Proof.
  revert target. induction budget as [|b IH]; intros target.
  - cbn. split; [done | intros (i & t & Hi & _); lia].
  - destruct target as [|t parents]; cbn [within_combobox].
    + split; [done | intros (i & t & _ & Hl & _); done].
    + destruct (is_combobox_node t) eqn:Ht.
      * split; [|done]. intros _. exists 0%nat, t. repeat split; [lia | done].
      * rewrite IH. split.
        -- intros (i & t' & Hi & Hl & Ht'). exists (S i), t'. repeat split; [lia | done | done].
        -- intros (i & t' & Hi & Hl & Ht'). destruct i as [|i]; cbn in Hl.
           ++ congruence.
           ++ exists i, t'. repeat split; [lia | done | done].
Qed.

(** X4.  The document's click listener looks at the target and at most
    nine ancestors: when one of these ten is the form or carries the class
    of a suggestion the click changes nothing, and when none is -- a form
    further up is not seen -- the click is Cancel, [close_popup(true)]. *)
Theorem click_is_inside_iff_combobox_among_ten target st :
  ((∃ i t, (i < 10)%nat ∧ target !! i = Some t ∧ is_combobox_node t = true) →
   document_click target st = (st, Normal tt))
  ∧ ((∀ i t, (i < 10)%nat → target !! i = Some t → is_combobox_node t = false) →
     document_click target st = close_popup true st).
Proof.
  unfold document_click. split.
  - intros H. apply within_combobox_spec in H. now rewrite H.
  - intros H. destruct (within_combobox 10 target) eqn:E; [|done].
    apply within_combobox_spec in E as (i & t & Hi & Hl & Ht).
    rewrite (H i t Hi Hl) in Ht. done.
Qed.

(** X5.  A click outside the combobox is Cancel: the input's text is the
    snapshot if one was held and is unchanged otherwise, the snapshot is
    dropped, the popup hidden and emptied, nothing is sent, and neither the
    dashboard nor the option array nor the highlight changes. *)
Theorem click_outside_restores_snapshot target st :
  within_combobox 10 target = false →
  let st' := handle (OtherClick target) st in
  input_value st' = default (input_value st) (old_username st)
  ∧ old_username st' = None
  ∧ popup_open st' = false
  ∧ shown_options st' = []
  ∧ sent st' = sent st
  ∧ main_html st' = main_html st
  ∧ refresh_text st' = refresh_text st
  ∧ available_options st' = available_options st
  ∧ current_option st' = current_option st.
Proof.
  intros Hout st'. subst st'. unfold handle, exec, document_click. rewrite Hout.
  rewrite close_popup_true. unfold popup_open, shown_options. fields.
  rewrite restored_sent.
  assert (input_value (restored st) = default (input_value st) (old_username st)) as Hin.
  { destruct (old_username st) as [o|] eqn:Hold; cbn.
    - now apply restored_input_value.
    - unfold restored. now rewrite Hold. }
  unfold restored, set_input_value in *.
  destruct (old_username st) as [o|]; [|repeat split; done].
  revert Hin. mstep. destruct (String.eqb o (input_value st)); fields; repeat split; done.
Qed.

(** X6.  A click on the input always sends one query carrying the input's
    text.  When the input sits within ten nodes below the form the click
    takes the text as snapshot unless one is held, and leaves text and popup
    alone; otherwise the document's listener cancels at once: no snapshot
    is left and the text is back to the one held. *)
Theorem input_click_opens_session target st :
  let st' := handle (InputClick target) st in
  sent st' = sent st ++ [OutUsernameSuggestions (input_value st)]
  ∧ (within_combobox 10 target = true →
     old_username st' = Some (default (input_value st) (old_username st))
     ∧ input_value st' = input_value st
     ∧ popup_display st' = popup_display st
     ∧ popup_children st' = popup_children st)
  ∧ (within_combobox 10 target = false →
     old_username st' = None
     ∧ input_value st' = default (input_value st) (old_username st)
     ∧ popup_open st' = false
     ∧ shown_options st' = []).
Proof.
  intros st'. subst st'. unfold handle, exec, input_click, ask_suggestions, document_click.
  cbv [mbind M_bind dispatch exec]. rewrite set_old_username_run. mstep.
  destruct (within_combobox 10 target).
  - fields. destruct (old_username st) eqn:Hold; fields; rewrite ?Hold;
      (split; [reflexivity|]); (split; [|discriminate]); intros _; repeat split.
  - rewrite close_popup_true. unfold restored, set_input_value, popup_open, shown_options.
    destruct (old_username st) as [o|] eqn:Hold; mstep; rewrite ?Hold; mstep.
    + destruct (String.eqb o (input_value st)) eqn:E; fields;
        (split; [reflexivity|]); (split; [discriminate|]); intros _; repeat split.
      symmetry. now apply String.eqb_eq.
    + rewrite String.eqb_refl. fields.
      (split; [reflexivity|]); (split; [discriminate|]); intros _; repeat split.
Qed.

(** ** Typing *)

Lemma plain_keydown k shift st :
  plain_key k = true →
  handle (InputKeydown k shift) st = exec set_old_username st.
Proof.
  unfold plain_key. intros Hk. apply negb_true_iff in Hk.
  repeat (apply orb_false_elim in Hk as [Hk ?]).
  unfold handle, keydown_in_input, input_keydown. mstep.
  rewrite set_old_username_run. 
  repeat match goal with H : String.eqb k _ = false |- _ => rewrite H; clear H end.
  mstep. unfold document_keydown. mstep.
  repeat match goal with H : String.eqb k _ = false |- _ => rewrite H; clear H end.
  reflexivity.
Qed.

Lemma stroke_run k text st :
  plain_key k = true →
  let st' := run [InputKeydown k false; InputEdited text] st in
  old_username st' = Some (default (input_value st) (old_username st))
  ∧ sent st' = sent st ++ [OutUsernameSuggestions text]
  ∧ input_value st' = text
  ∧ popup_display st' = popup_display st
  ∧ popup_children st' = popup_children st
  ∧ available_options st' = available_options st
  ∧ current_option st' = current_option st
  ∧ main_html st' = main_html st
  ∧ refresh_text st' = refresh_text st.
Proof.
  intros Hk st'. subst st'. cbn [run foldl].
  rewrite (plain_keydown k false st Hk). unfold exec. rewrite set_old_username_run.
  unfold handle, input_input, ask_suggestions. mstep.
  destruct (old_username st) eqn:Hold; fields; repeat split; done.
Qed.

(** X7.  Typing -- keydowns of plain keys, each followed by the edit it
    makes -- keeps the snapshot taken at the first keydown (the text before
    any edit, or the snapshot already held), sends one query per edit, in
    order, each carrying the text after that edit, and touches neither the
    popup nor the dashboard. *)
Theorem typing_keeps_first_snapshot strokes st :
  strokes ≠ [] →
  Forall (λ stroke, plain_key (fst stroke) = true) strokes →
  let st' := run (typing strokes) st in
  old_username st' = Some (default (input_value st) (old_username st))
  ∧ sent st' = sent st ++ (OutUsernameSuggestions <$> (snd <$> strokes))
  ∧ Some (input_value st') = last (snd <$> strokes)
  ∧ popup_display st' = popup_display st
  ∧ main_html st' = main_html st.
Proof.
  intros Hne Hplain. revert st.
  induction Hplain as [|[k text] rest Hk _ IH]; [done|]. intros st st'. subst st'.
  cbn [fst] in Hk.
  change (typing ((k, text) :: rest))
    with ([InputKeydown k false; InputEdited text] ++ typing rest).
  unfold run. rewrite foldl_app. fold (run [InputKeydown k false; InputEdited text] st).
  destruct (stroke_run k text st Hk) as (Hold & Hsent & Hin & Hd & _ & _ & _ & Hm & _).
  remember (run [InputKeydown k false; InputEdited text] st) as st1 eqn:Hst1. clear Hst1.
  fold (run (typing rest) st1).
  destruct rest as [|stroke rest'].
  - cbn. rewrite Hold, Hsent, Hin. repeat split; done.
  - destruct (IH ltac:(done) st1) as (Hold' & Hsent' & Hin' & Hd' & Hm').
    rewrite Hold', Hsent', Hin', Hd', Hm'. rewrite Hold. cbn [default from_option id].
    rewrite Hsent, Hd, Hm, <- app_assoc. repeat split; done.
Qed.

(** ** Navigation keys and option clicks *)

Lemma set_old_username_highlight st :
  highlight_valid st → highlight_valid (exec set_old_username st).
Proof.
  unfold exec. rewrite set_old_username_run. now destruct (old_username st).
Qed.

Lemma selectNext_completes st :
  highlight_valid st → selectNext st = (exec selectNext st, Normal tt).
Proof.
  intros Hv. unfold exec. destruct (decide (available_options st = [])) as [Hnil|Hav].
  - unfold selectNext. now rewrite changeSelection_empty.
  - destruct (selectNext_moves st Hav (wrapped_next_of_valid st Hav Hv)) as (st' & -> & _).
    reflexivity.
Qed.

Lemma selectPrev_completes st :
  highlight_valid st → selectPrev st = (exec selectPrev st, Normal tt).
Proof.
  intros Hv. unfold exec. destruct (decide (available_options st = [])) as [Hnil|Hav].
  - unfold selectPrev. now rewrite changeSelection_empty.
  - destruct (selectPrev_moves st Hav (wrapped_prev_of_valid st Hav Hv)) as (st' & -> & _).
    reflexivity.
Qed.

(** X8.  With a valid highlight, ArrowDown and Tab are [selectNext] and
    ArrowUp and Shift+Tab are [selectPrev], run once the snapshot is taken;
    all four stop the event before it reaches the document, and Tab also
    suppresses the default focus move -- even with no option at all, when
    it does nothing else. *)
Theorem navigation_keys st :
  highlight_valid st →
  let started := exec set_old_username st in
  keydown_in_input (keypress "ArrowDown" false) st
    = (exec selectNext started, stopImmediatePropagation (keypress "ArrowDown" false))
  ∧ keydown_in_input (keypress "ArrowUp" false) st
    = (exec selectPrev started, stopImmediatePropagation (keypress "ArrowUp" false))
  ∧ keydown_in_input (keypress "Tab" false) st
    = (exec selectNext started,
       preventDefault (stopImmediatePropagation (keypress "Tab" false)))
  ∧ keydown_in_input (keypress "Tab" true) st
    = (exec selectPrev started,
       preventDefault (stopImmediatePropagation (keypress "Tab" true)))
  ∧ (available_options st = [] →
     keydown_in_input (keypress "Tab" false) st
     = (started, preventDefault (stopImmediatePropagation (keypress "Tab" false)))).
Proof.
  intros Hv started.
  pose proof (selectNext_completes started (set_old_username_highlight st Hv)) as Hn.
  pose proof (selectPrev_completes started (set_old_username_highlight st Hv)) as Hp.
  assert (∀ k shift,
            keydown_in_input (keypress k shift) st =
            match input_keydown (keypress k shift) st with
            | (st', Normal ev') =>
                if propagation_stopped ev' then (st', ev')
                else match document_keydown ev' st' with
                     | (st'', Normal ev'') => (st'', ev'')
                     | (st'', Throw _) => (st'', ev')
                     end
            | (st', Throw _) =>
                match document_keydown (keypress k shift) st' with
                | (st'', Normal ev'') => (st'', ev'')
                | (st'', Throw _) => (st'', keypress k shift)
                end
            end) as Hkd by reflexivity.
  assert (set_old_username st = (started, Normal tt)) as Hs
    by (subst started; unfold exec; now rewrite set_old_username_run).
  repeat split.
  1-4: rewrite Hkd; unfold input_keydown; cbv [mbind M_bind mret M_ret]; rewrite Hs;
       cbn [key keypress shiftKey String.eqb Ascii.eqb Bool.eqb]; rewrite ?Hn, ?Hp; reflexivity.
  intros Hnil. rewrite Hkd. unfold input_keydown. cbv [mbind M_bind mret M_ret]. rewrite Hs.
  cbn [key keypress shiftKey String.eqb Ascii.eqb Bool.eqb]. unfold selectNext.
  rewrite changeSelection_empty; [reflexivity|].
  subst started. unfold exec. rewrite set_old_username_run. now destruct (old_username st).
Qed.

(** X9.  After a reply, a click on the [n]-th option shown selects the
    [n]-th suggestion of that reply.  If its name is not the snapshot and
    [#main] is in the document, exactly one [UsernameSelect] with that name
    is sent, the placeholder for it is up, and the popup is closed with no
    snapshot left.  With [#main] gone the click's listener throws at once:
    nothing is sent, the popup stays open on the reply's options and the
    snapshot stays. *)
Theorem click_on_nth_option_selects_nth_suggestion now l n s st :
  l !! n = Some s →
  old_username st ≠ Some (name s) →
  let st' := handle (OptionClick n) (handle (Message now (UsernameSuggestions l)) st) in
  if main_exists st
  then sent st' = sent st ++ [OutUsernameSelect (JStr (name s))]
       ∧ refresh_text st' = "getting PR data for user " +:+ name s
       ∧ main_html st' = ""
       ∧ popup_open st' = false
       ∧ shown_options st' = []
       ∧ old_username st' = None
  else sent st' = sent st
       ∧ refresh_text st' = refresh_text st
       ∧ main_html st' = main_html st
       ∧ popup_open st' = true
       ∧ shown_options st' = offered l
       ∧ old_username st' = old_username st.
Proof.
  intros Hn Hold st'. subst st'.
  assert (l ≠ []) as Hl by (intros ->; done).
  destruct (suggestions_replace now l st Hl) as (_ & Hshown & _ & Hopen & _).
  destruct (apply_suggestions_run l st Hl)
    as (st1 & Hrun & Hcur & Hd & He & Ha & Hp & Hold1 & Hin1 & Hsent1 & Hrest).
  assert (handle (Message now (UsernameSuggestions l)) st = st1) as Hst1.
  { unfold handle, exec. now rewrite on_message_suggestions, Hrun. }
  rewrite Hst1 in *. clear Hst1.
  assert (popup_children st1 !! n = Some (length (elems st) + n)%nat) as Hpn.
  { rewrite Hp. apply lookup_seq_lt. now apply lookup_lt_Some in Hn. }
  assert (offers st1 (length (elems st) + n) s) as Hoff.
  { exists (option_elem s). split; [|reflexivity].
    rewrite He, lookup_app_r by lia.
    replace (length (elems st) + n - length (elems st))%nat with n by lia.
    now rewrite list_lookup_fmap, Hn. }
  assert (handle (OptionClick n) st1 = exec (select_username (JStr (name s))) st1) as ->.
  { unfold handle. rewrite Hpn. unfold exec. now rewrite (click_elem_offers _ _ s Hoff). }
  destruct Hrest as (Hmain & Hrefresh & Hexists).
  destruct (main_exists st) eqn:Hm.
  - destruct (select_username_committed (name s) st1) as (_ & Hc & _);
      [now rewrite Hold1 | now rewrite Hexists |].
    destruct Hc as (? & ? & ? & Hsent & ? & ? & _).
    rewrite Hsent, Hsent1. repeat split; done.
  - unfold exec. rewrite select_username_without_main; [| | now rewrite Hexists].
    + cbn [fst]. rewrite Hsent1, Hrefresh, Hmain, Hold1. repeat split; done.
    + rewrite Hold1. destruct (old_username st) as [o|]; [|reflexivity].
      apply strict_eq_old_str_ne. congruence.
Qed.

(** ** What inbound frames never do *)

Section Quiet.
Context (s : list outbound) (a : focus).

Lemma createElement_li_quiet : preserved (quiet s a) createElement_li.
Proof. intros st H. exact H. Qed.

Lemma set_input_value_quiet v : preserved (quiet s a) (set_input_value v).
Proof.
  unfold set_input_value. apply preserved_update. intros st H.
  destruct (String.eqb v (input_value st)); exact H.
Qed.

Lemma console_log_quiet text args : preserved (quiet s a) (console_log text args).
Proof. unfold console_log. keeps. Qed.

Lemma on_elem_quiet r f : preserved (quiet s a) (on_elem r f).
Proof. unfold on_elem. keeps. Qed.

Lemma set_main_innerHTML_quiet html : preserved (quiet s a) (set_main_innerHTML html).
Proof.
  intros st [Hs Ha]. unfold set_main_innerHTML. mstep.
  destruct (main_exists st); [|exact (conj Hs Ha)]. fields. split; [exact Hs|].
  destruct Ha as [-> | ->]; destruct a; cbn; auto.
Qed.

Lemma set_main_outerHTML_quiet v : preserved (quiet s a) (set_main_outerHTML v).
Proof.
  intros st [Hs Ha]. unfold set_main_outerHTML. mstep.
  destruct (main_exists st); [|exact (conj Hs Ha)].
  destruct (to_DOMString v); [|exact (conj Hs Ha)]. fields. split; [exact Hs|].
  destruct Ha as [-> | ->]; destruct a; cbn; auto.
Qed.

#[local] Hint Resolve createElement_li_quiet set_input_value_quiet console_log_quiet
  on_elem_quiet set_main_innerHTML_quiet set_main_outerHTML_quiet : keeps.

Lemma close_popup_quiet reset : preserved (quiet s a) (close_popup reset).
Proof. unfold close_popup. keeps. Qed.

#[local] Hint Resolve close_popup_quiet : keeps.

Lemma set_username_quiet name : preserved (quiet s a) (set_username name).
Proof. unfold set_username. keeps. Qed.

Lemma add_suggestion_quiet i : preserved (quiet s a) (add_suggestion i).
Proof. unfold add_suggestion. keeps. Qed.

#[local] Hint Resolve set_username_quiet add_suggestion_quiet : keeps.

Lemma apply_username_suggestions_quiet v :
  preserved (quiet s a) (apply_username_suggestions v).
Proof. unfold apply_username_suggestions. keeps. Qed.

#[local] Hint Resolve apply_username_suggestions_quiet : keeps.

Lemma on_message_quiet now f : preserved (quiet s a) (on_message now f).
Proof. unfold on_message, update_last_refreshed. keeps. Qed.
End Quiet.

(** X10.  No inbound frame, well formed or not, makes the page send
    anything, and none moves the focus -- except that a focus on [#main] or
    inside it falls to the body when the frame replaces or clears
    [#main]. *)
Theorem inbound_frame_sends_nothing now f st :
  let st' := handle (Message now f) st in
  sent st' = sent st
  ∧ (active st' = active st
     ∨ active st' = OnBody ∧ (active st = OnMain ∨ ∃ editable, active st = InMain editable)).
Proof.
  intros st'. subst st'.
  destruct (on_message_quiet (sent st) (active st) now f st) as [Hs Ha];
    [split; [reflexivity | now left]|].
  split; [exact Hs|]. destruct Ha as [Ha | Ha]; [now left|].
  unfold handle, exec. rewrite Ha. destruct (active st); cbn; eauto.
Qed.

(** ** Payloads of the wrong shape *)

(** X11.  A [UsernameSuggestions] frame whose [suggestions] is missing or
    [null] throws a TypeError and changes nothing.  One whose [suggestions]
    is a number or a boolean throws too, but only after the reset: the popup
    is left open and empty, with no option and no highlight; the snapshot
    and the text are kept. *)
Theorem suggestions_of_wrong_type now st payload :
  (own_prop "suggestions" payload = None ∨ own_prop "suggestions" payload = Some JNull →
   on_message now (keyed "UsernameSuggestions" payload) st = (st, Throw TypeError))
  ∧ (∀ v, own_prop "suggestions" payload = Some v → scalar v = true →
       ∃ st', on_message now (keyed "UsernameSuggestions" payload) st = (st', Throw TypeError)
              ∧ popup_open st' = true
              ∧ shown_options st' = []
              ∧ options st' = []
              ∧ current_option st' = None
              ∧ old_username st' = old_username st
              ∧ input_value st' = input_value st).
Proof.
  unfold keyed, on_message. mstep.
  cbn [get_field own_prop String.eqb Ascii.eqb Bool.eqb default from_option id is_str].
  split.
  - intros [-> | ->]; reflexivity.
  - intros v -> Hv. cbn [default from_option id]. destruct v; try discriminate Hv;
      (eexists; split; [reflexivity|]); repeat split.
Qed.

(** X12.  A missing payload field reads as [undefined] and is shown as
    the text "undefined": an [UpdatePage] frame without [main_contents] acts
    as one whose fragment is "undefined", a [SetUsername] frame without
    [new_name] as one naming "undefined"; with [#main] in the document both
    complete normally. *)
Theorem missing_fields_read_as_undefined now st payload :
  (own_prop "main_contents" payload = None →
   on_message now (keyed "UpdatePage" payload) st
   = on_message now (UpdatePage "undefined") st
   ∧ (main_exists st = true →
      on_message now (keyed "UpdatePage" payload) st
      = (exec (on_message now (UpdatePage "undefined")) st, Normal tt)))
  ∧ (own_prop "new_name" payload = None →
     on_message now (keyed "SetUsername" payload) st
     = on_message now (SetUsername "undefined") st
     ∧ (main_exists st = true →
        on_message now (keyed "SetUsername" payload) st
        = (exec (on_message now (SetUsername "undefined")) st, Normal tt))).
Proof.
  assert (∀ payload', own_prop "main_contents" payload' = None →
            on_message now (keyed "UpdatePage" payload') st
            = on_message now (UpdatePage "undefined") st) as Hupdate.
  { intros payload' Hnone. unfold keyed, UpdatePage, on_message, set_main_outerHTML. mstep.
    cbn [get_field own_prop String.eqb Ascii.eqb Bool.eqb default from_option id is_str].
    rewrite Hnone. reflexivity. }
  assert (∀ payload', own_prop "new_name" payload' = None →
            on_message now (keyed "SetUsername" payload') st
            = on_message now (SetUsername "undefined") st) as Hset.
  { intros payload' Hnone. unfold keyed, SetUsername, on_message. mstep.
    cbn [get_field own_prop String.eqb Ascii.eqb Bool.eqb default from_option id is_str].
    rewrite Hnone. cbn [default from_option id].
    unfold set_username, set_main_innerHTML. mstep. rewrite !close_popup_false. mstep.
    destruct (main_exists st); reflexivity. }
  split; intros Hnone; (split; [auto|]); intros Hm; rewrite ?Hupdate, ?Hset by done.
  - unfold exec. rewrite on_message_UpdatePage, Hm. reflexivity.
  - unfold exec.
    change (on_message now (SetUsername "undefined") st)
      with (set_username (JStr "undefined") st).
    unfold set_username, set_main_innerHTML, set_input_value.
    cbv [mbind M_bind]. rewrite close_popup_false. mstep. rewrite Hm. reflexivity.
Qed.

(** ** Well-formed pages *)

Lemma changeSelection_marks (g : option Z → Z → Z) f st :
  available_options st ≠ [] →
  (∀ s, f s = (with_current_option
                 (Some (g (current_option s) (Z.of_nat (length (available_options s))))) s,
               Normal tt)) →
  let n := Z.of_nat (length (available_options st)) in
  let c := wrapped n (g (current_option st) n) in
  (0 ≤ c < n)%Z →
  ∃ st' r, changeSelection f st = (st', Normal tt)
           ∧ current_option st' = Some c
           ∧ available_options st !! Z.to_nat c = Some r
           ∧ elems st' = alter (with_ariaSelected "true") r (unmarked st)
           ∧ same_but_highlight st st'.
Proof.
  intros Hav Hf n c Hc.
  destruct (lookup_lt_is_Some_2 (available_options st) (Z.to_nat c)) as [r Hr]; [lia|].
  unfold changeSelection, unmarked. cbv [mbind M_bind]. unfold read at 1.
  destruct (available_options st) as [|r0 l] eqn:Eav; [done|].
  cbn [length Nat.eqb]. rewrite for_of_on_elem, Hf. mstep. rewrite Eav.
  change (Z.of_nat (length (r0 :: l))) with n.
  cbv [num default from_option id].
  subst c. unfold wrapped in *. subst n. cbn [length] in *.
  destruct (g (current_option st) _ >=? _)%Z; [|destruct (g (current_option st) _ <? 0)%Z];
    mstep; rewrite ?Eav; unfold js_index;
    (match goal with |- context [(?x <? 0)%Z] => destruct (Z.ltb_spec x 0); [lia|] end);
    rewrite Hr; unfold on_elem; mstep;
    eexists _, r; (split; [reflexivity|]); unfold same_but_highlight; fields; done.
Qed.

Lemma unmark_all (l : list nat) (es : list li_elem) (r : nat) :
  (∀ x, x ∈ l → is_Some (es !! x)) →
  r ∈ l ∨ unmarked_at es r →
  unmarked_at (foldl (λ es i, alter (with_ariaSelected "false") i es) es l) r.
Proof.
  revert es. induction l as [|a l IH]; intros es Hsome Hr; cbn [foldl].
  - destruct Hr as [Hr|Hr]; [|exact Hr]. now apply elem_of_nil in Hr.
  - apply IH.
    + intros x Hx. rewrite list_lookup_alter. destruct (decide (a = x)) as [->|Hne].
      * destruct (Hsome x) as [e He]; [now left|]. rewrite He. cbn. eauto.
      * apply Hsome. now right.
    + destruct (decide (r = a)) as [->|Hne].
      * right. destruct (Hsome a) as [e He]; [now left|].
        exists (with_ariaSelected "false" e). split; [|reflexivity].
        now rewrite list_lookup_alter_eq, He.
      * destruct Hr as [Hr|(e & He & Hf)].
        -- left. apply elem_of_cons in Hr as [Hr|Hr]; [congruence | exact Hr].
        -- right. exists e. split; [|exact Hf]. now rewrite list_lookup_alter_ne.
Qed.

Lemma moved_wellformed st st' c r :
  wellformed st →
  current_option st' = Some c →
  (0 ≤ c < Z.of_nat (length (available_options st)))%Z →
  available_options st !! Z.to_nat c = Some r →
  elems st' = alter (with_ariaSelected "true") r (unmarked st) →
  same_but_highlight st st' →
  wellformed st'.
Proof.
  intros (Hv & Hnd & Hm & Hpre & Hhid) Hcur Hc Hr He (Hav & _ & _ & _ & _ & Hd & Hch & _).
  unfold wellformed, highlight_valid, marks_follow_highlight, mark_of, popup_open.
  rewrite Hcur, Hav, Hch, Hd, He.
  split; [exact Hc|]. split; [exact Hnd|]. split; [|split; assumption].
  intros i ri Hi.
  assert (unmarked_at (unmarked st) ri) as (e & Hlook & Hfalse).
  { apply unmark_all.
    - intros x Hx. apply list_elem_of_lookup in Hx as [j Hj].
      destruct (Hm j x Hj) as (e & -> & _). eauto.
    - left. apply list_elem_of_lookup. eauto. }
  destruct (decide (i = Z.to_nat c)) as [->|Hne].
  - assert (ri = r) as -> by congruence.
    exists (with_ariaSelected "true" e). rewrite list_lookup_alter_eq, Hlook.
    split; [reflexivity|]. cbn [ariaSelected with_ariaSelected].
    rewrite bool_decide_eq_true_2; [reflexivity|]. f_equal. lia.
  - assert (ri ≠ r) as Hri.
    { intros ->. apply Hne. exact (NoDup_lookup _ _ _ _ Hnd Hi Hr). }
    exists e. rewrite list_lookup_alter_ne by done. split; [exact Hlook|].
    rewrite Hfalse, bool_decide_eq_false_2; [reflexivity|].
    intros [= Heq]. apply Hne. lia.
Qed.

Lemma selectNext_wellformed : preserved wellformed selectNext.
Proof.
  intros st Hwf. destruct (decide (available_options st = [])) as [Hnil|Hav].
  - unfold selectNext. now rewrite changeSelection_empty.
  - pose proof (wrapped_next_of_valid st Hav (proj1 Hwf)) as Hc.
    destruct (changeSelection_marks next_of
                (cur ← read current_option;
                 match cur with
                 | None => update (with_current_option (Some 0%Z))
                 | Some c => update (with_current_option (Some (c + 1)%Z))
                 end) st Hav) as (st' & r & Hrun & Hcur & Hr & He & Hsame); [|exact Hc|].
    { intros s. mstep. unfold next_of. now destruct (current_option s). }
    unfold selectNext. rewrite Hrun. exact (moved_wellformed st st' _ r Hwf Hcur Hc Hr He Hsame).
Qed.

Lemma selectPrev_wellformed : preserved wellformed selectPrev.
Proof.
  intros st Hwf. destruct (decide (available_options st = [])) as [Hnil|Hav].
  - unfold selectPrev. now rewrite changeSelection_empty.
  - pose proof (wrapped_prev_of_valid st Hav (proj1 Hwf)) as Hc.
    destruct (changeSelection_marks prev_of
                (cur ← read current_option;
                 match cur with
                 | None =>
                     len ← read (λ st, Z.of_nat (length (available_options st)));
                     update (with_current_option (Some (len - 1)%Z))
                 | Some c => update (with_current_option (Some (c - 1)%Z))
                 end) st Hav) as (st' & r & Hrun & Hcur & Hr & He & Hsame); [|exact Hc|].
    { intros s. mstep. unfold prev_of. now destruct (current_option s). }
    unfold selectPrev. rewrite Hrun. exact (moved_wellformed st st' _ r Hwf Hcur Hc Hr He Hsame).
Qed.

(** [add_suggestion] on any value: the element is made, unmarked and
    listed; it is in the popup when the statement completes. *)
Lemma add_suggestion_any i st :
  ∃ st' c e, add_suggestion i st = (st', c)
    ∧ elems st' = elems st ++ [e]
    ∧ ariaSelected e = Some "false"
    ∧ available_options st' = available_options st ++ [length (elems st)]
    ∧ current_option st' = current_option st
    ∧ popup_display st' = popup_display st
    ∧ popup_children st' =
        match c with
        | Normal _ => popup_children st ++ [length (elems st)]
        | Throw _ => popup_children st
        end.
Proof.
  unfold add_suggestion, createElement_li, on_elem. mstep.
  destruct (get_field i "avatar_url") as [avatar|]; [destruct (ToString avatar) as [src|]|];
    [destruct (get_field i "name") as [name|]; [destruct (to_DOMString name) as [text|]|]| |];
    fields; eexists _, _, _; (split; [reflexivity|]); fields; rewrite !alter_last;
    repeat split.
Qed.

Lemma filling_wellformed st :
  filling st → popup_children st `prefix_of` available_options st → wellformed st.
Proof.
  intros (Hcur & Hopen & Hnd & Hfalse) Hpre.
  unfold wellformed, highlight_valid, marks_follow_highlight, mark_of.
  rewrite Hcur, Hopen. repeat split; try done.
  intros i r Hi. apply Hfalse, list_elem_of_lookup. eauto.
Qed.

Lemma add_suggestion_filling i st :
  filling st →
  popup_children st = available_options st →
  match add_suggestion i st with
  | (st', Normal _) => filling st' ∧ popup_children st' = available_options st'
  | (st', Throw _) => filling st' ∧ popup_children st' `prefix_of` available_options st'
  end.
Proof.
  intros (Hcur & Hopen & Hnd & Hfalse) Hsame.
  destruct (add_suggestion_any i st) as (st' & c & e & -> & He & Hmark & Hav & Hcur' & Hd & Hch).
  assert (filling st') as Hfill.
  { unfold filling, popup_open in *. rewrite Hcur', Hd, Hav, He. repeat split; try done.
    - apply NoDup_app. repeat split; [done | | apply NoDup_singleton].
      intros r Hr ->%list_elem_of_singleton.
      destruct (Hfalse _ Hr) as (e' & He' & _). apply lookup_lt_Some in He'. lia.
    - intros r [Hr | ->%list_elem_of_singleton]%elem_of_app.
      + destruct (Hfalse r Hr) as (e' & He' & Hm'). exists e'.
        split; [|exact Hm']. rewrite lookup_app_l; [done | now apply lookup_lt_Some in He'].
      + exists e. split; [|exact Hmark]. rewrite lookup_app_r by lia.
        now rewrite Nat.sub_diag. }
  destruct c; (split; [exact Hfill|]); rewrite Hch, Hav, Hsame; [done|].
  now apply prefix_app_r.
Qed.

Lemma for_of_filling items st :
  filling st →
  popup_children st = available_options st →
  match for_of items add_suggestion st with
  | (st', Normal _) => filling st' ∧ popup_children st' = available_options st'
  | (st', Throw _) => filling st' ∧ popup_children st' `prefix_of` available_options st'
  end.
Proof.
  revert st. induction items as [|i items IH]; intros st Hfill Hsame; cbn [for_of].
  - done.
  - cbv [mbind M_bind]. pose proof (add_suggestion_filling i st Hfill Hsame) as H1.
    destruct (add_suggestion i st) as [st1 [[]|e]]; [|exact H1].
    destruct H1 as [Hfill1 Hsame1]. exact (IH st1 Hfill1 Hsame1).
Qed.

Lemma apply_username_suggestions_wellformed v :
  preserved wellformed (apply_username_suggestions v).
Proof.
  intros st Hwf. unfold apply_username_suggestions. cbv [mbind M_bind lift].
  destruct (js_length v) as [len|]; [|exact Hwf].
  destruct (is_zero len); [exact Hwf|]. mstep.
  set (st0 := with_popup_children [] _).
  assert (filling st0) as Hfill.
  { unfold filling, popup_open. subst st0. fields. repeat split; try done.
    - apply NoDup_nil_2.
    - intros r Hr. now apply elem_of_nil in Hr. }
  destruct (js_iterate v) as [items|].
  - pose proof (for_of_filling items st0 Hfill eq_refl) as H.
    destruct (for_of items add_suggestion st0) as [st1 [[]|e]]; cbn [fst];
      destruct H as [Hf Hp]; apply filling_wellformed; try done. now rewrite Hp.
  - cbn [fst]. now apply filling_wellformed.
Qed.

Lemma restored_core st :
  current_option (restored st) = current_option st
  ∧ available_options (restored st) = available_options st
  ∧ elems (restored st) = elems st.
Proof.
  unfold restored, set_input_value. destruct (old_username st) as [o|]; [|done].
  mstep. now destruct (String.eqb o (input_value st)).
Qed.

Lemma close_popup_wellformed reset : preserved wellformed (close_popup reset).
Proof.
  intros st (Hv & Hnd & Hm & _ & _).
  assert (∀ st1, current_option st1 = current_option st →
                 available_options st1 = available_options st →
                 elems st1 = elems st →
                 wellformed (with_popup_children []
                               (with_popup_display "none"
                                  (with_old_username None
                                     (with_console (console st ++ [Log "reset old username" []])
                                        st1))))) as Hclosed.
  { intros st1 Hc Ha He.
    unfold wellformed, highlight_valid, marks_follow_highlight, mark_of. fields.
    rewrite Hc, Ha, He. repeat split; try done. apply prefix_nil. }
  destruct reset.
  - rewrite close_popup_true. destruct (restored_core st) as (? & ? & ?). now apply Hclosed.
  - rewrite close_popup_false. now apply Hclosed.
Qed.

Lemma set_input_value_wellformed s : preserved wellformed (set_input_value s).
Proof.
  unfold set_input_value. apply preserved_update. intros st H.
  destruct (String.eqb s (input_value st)); exact H.
Qed.

Lemma input_blur_wellformed : preserved wellformed input_blur.
Proof.
  unfold input_blur. apply preserved_update. intros st H. destruct (active st); exact H.
Qed.

Lemma console_log_wellformed text args : preserved wellformed (console_log text args).
Proof. unfold console_log. keeps. Qed.

Lemma socket_send_wellformed msg : preserved wellformed (socket_send msg).
Proof. unfold socket_send. keeps. Qed.

Lemma set_main_innerHTML_wellformed html : preserved wellformed (set_main_innerHTML html).
Proof. unfold set_main_innerHTML. keeps. Qed.

Lemma set_main_outerHTML_wellformed v : preserved wellformed (set_main_outerHTML v).
Proof. unfold set_main_outerHTML. keeps. Qed.

#[local] Hint Resolve close_popup_wellformed set_input_value_wellformed input_blur_wellformed
  console_log_wellformed socket_send_wellformed selectNext_wellformed selectPrev_wellformed
  apply_username_suggestions_wellformed set_main_innerHTML_wellformed
  set_main_outerHTML_wellformed : keeps.

Lemma select_username_wellformed name : preserved wellformed (select_username name).
Proof. unfold select_username. keeps. Qed.

Lemma set_username_wellformed name : preserved wellformed (set_username name).
Proof. unfold set_username. keeps. Qed.

#[local] Hint Resolve select_username_wellformed set_username_wellformed : keeps.

Lemma click_elem_wellformed r : preserved wellformed (click_elem r).
Proof. unfold click_elem. keeps. Qed.

#[local] Hint Resolve click_elem_wellformed : keeps.

Lemma confirmSelect_wellformed enter_pressed :
  preserved wellformed (confirmSelect enter_pressed).
Proof. unfold confirmSelect. keeps. Qed.

Lemma set_old_username_wellformed : preserved wellformed set_old_username.
Proof. unfold set_old_username. keeps. Qed.

Lemma ask_suggestions_wellformed : preserved wellformed ask_suggestions.
Proof. unfold ask_suggestions. keeps. Qed.

#[local] Hint Resolve confirmSelect_wellformed set_old_username_wellformed
  ask_suggestions_wellformed : keeps.

Lemma input_keydown_wellformed ev : preserved wellformed (input_keydown ev).
Proof. unfold input_keydown. keeps. Qed.

Lemma document_keydown_wellformed ev : preserved wellformed (document_keydown ev).
Proof. unfold document_keydown, input_focus, input_select. keeps. Qed.

Lemma document_click_wellformed target : preserved wellformed (document_click target).
Proof. unfold document_click. keeps. Qed.

Lemma input_click_wellformed : preserved wellformed input_click.
Proof. unfold input_click. keeps. Qed.

Lemma reset_button_click_wellformed : preserved wellformed reset_button_click.
Proof. unfold reset_button_click. keeps. Qed.

Lemma on_message_wellformed now f : preserved wellformed (on_message now f).
Proof. unfold on_message, update_last_refreshed. keeps. Qed.

#[local] Hint Resolve input_keydown_wellformed document_keydown_wellformed
  document_click_wellformed input_click_wellformed reset_button_click_wellformed
  on_message_wellformed : keeps.

Lemma handle_wellformed e st : wellformed st → wellformed (handle e st).
Proof.
  intros Hwf. destruct e as [now f|target|k shift|text|n|target|target|k shift|to];
    cbn [handle].
  - now apply on_message_wellformed.
  - revert st Hwf. change (preserved wellformed
      (dispatch input_click ;; dispatch (document_click target))). keeps.
  - unfold keydown_in_input.
    pose proof (input_keydown_wellformed (keypress k shift) st Hwf) as H1.
    destruct (input_keydown (keypress k shift) st) as [st1 [ev1|e1]]; cbn [fst] in H1.
    + destruct (propagation_stopped ev1); [exact H1|].
      pose proof (document_keydown_wellformed ev1 st1 H1) as H2.
      now destruct (document_keydown ev1 st1) as [st2 [ev2|e2]].
    + pose proof (document_keydown_wellformed (keypress k shift) st1 H1) as H2.
      now destruct (document_keydown (keypress k shift) st1) as [st2 [ev2|e2]].
  - apply (ask_suggestions_wellformed (with_input_selected false (with_input_value text st))).
    exact Hwf.
  - destruct (popup_children st !! n); [now apply click_elem_wellformed | exact Hwf].
  - revert st Hwf. change (preserved wellformed
      (dispatch reset_button_click ;; dispatch (document_click target))). keeps.
  - now apply document_click_wellformed.
  - now apply document_keydown_wellformed.
  - destruct (focusable to st); exact Hwf.
Qed.

Lemma run_wellformed events st : wellformed st → wellformed (run events st).
Proof.
  revert st. induction events as [|e events IH]; intros st Hwf; [exact Hwf|].
  cbn [run foldl]. apply IH, handle_wellformed, Hwf.
Qed.

Lemma initial_wellformed parser shown : wellformed (initial parser shown).
Proof.
  unfold wellformed, highlight_valid, marks_follow_highlight. cbn.
  repeat split; try done. apply NoDup_nil_2.
Qed.

(** ** One message per event *)

Lemma silent_sends_at_most_once {A} (m : M A) : silent m → sends_at_most_once m.
Proof. intros H st. left. exact (H (sent st) st eq_refl). Qed.

Lemma silent_then {A B} (m : M A) (f : A → M B) :
  silent m → (∀ a, sends_at_most_once (f a)) → sends_at_most_once (m ≫= f).
Proof.
  intros Hm Hf st. specialize (Hm (sent st) st eq_refl). cbv [mbind M_bind].
  destruct (m st) as [st1 [a|e]]; cbn [fst] in *; unfold unsent in Hm.
  - rewrite <- Hm. apply Hf.
  - now left.
Qed.

Lemma then_silent {A B} (m : M A) (f : A → M B) :
  sends_at_most_once m → (∀ a, silent (f a)) → sends_at_most_once (m ≫= f).
Proof.
  intros Hm Hf st. specialize (Hm st). cbv [mbind M_bind].
  destruct (m st) as [st1 [a|e]]; cbn [fst] in *; [|exact Hm].
  pose proof (Hf a (sent st1) st1 eq_refl) as Hk. unfold unsent in Hk. now rewrite Hk.
Qed.

Lemma socket_send_once msg : sends_at_most_once (socket_send msg).
Proof. intros st. right. now exists msg. Qed.

Section Unsent.
Context (s : list outbound).

Lemma console_log_unsent text args : preserved (unsent s) (console_log text args).
Proof. unfold console_log. keeps. Qed.

Lemma on_elem_unsent r f : preserved (unsent s) (on_elem r f).
Proof. unfold on_elem. keeps. Qed.

Lemma set_input_value_unsent v : preserved (unsent s) (set_input_value v).
Proof.
  unfold set_input_value. apply preserved_update. intros st H.
  destruct (String.eqb v (input_value st)); exact H.
Qed.

Lemma input_blur_unsent : preserved (unsent s) input_blur.
Proof.
  unfold input_blur. apply preserved_update. intros st H. destruct (active st); exact H.
Qed.

Lemma set_main_innerHTML_unsent html : preserved (unsent s) (set_main_innerHTML html).
Proof. unfold set_main_innerHTML. keeps. Qed.

#[local] Hint Resolve console_log_unsent on_elem_unsent set_input_value_unsent
  input_blur_unsent set_main_innerHTML_unsent : keeps.

Lemma close_popup_unsent reset : preserved (unsent s) (close_popup reset).
Proof. unfold close_popup. keeps. Qed.

Lemma set_old_username_unsent : preserved (unsent s) set_old_username.
Proof. unfold set_old_username. keeps. Qed.

Lemma selectNext_unsent : preserved (unsent s) selectNext.
Proof. unfold selectNext, changeSelection. keeps. Qed.

Lemma selectPrev_unsent : preserved (unsent s) selectPrev.
Proof. unfold selectPrev, changeSelection. keeps. Qed.

Lemma document_keydown_unsent ev : preserved (unsent s) (document_keydown ev).
Proof. unfold document_keydown, input_focus, input_select. keeps. Qed.

#[local] Hint Resolve close_popup_unsent set_old_username_unsent selectNext_unsent
  selectPrev_unsent document_keydown_unsent : keeps.

Lemma document_click_unsent target : preserved (unsent s) (document_click target).
Proof. unfold document_click. keeps. Qed.
End Unsent.

Lemma select_username_once name : sends_at_most_once (select_username name).
Proof.
  unfold select_username. apply silent_then; [intros s; keeps|]. intros old.
  destruct (strict_eq_old name old); [apply silent_sends_at_most_once; intros s; keeps|].
  apply silent_then; [intros s; apply set_main_innerHTML_unsent|]. intros _.
  apply silent_then; [intros s; keeps|]. intros str.
  apply silent_then; [intros s; keeps|]. intros _.
  apply silent_then; [intros s; apply close_popup_unsent|]. intros _.
  apply socket_send_once.
Qed.

Lemma dispatch_once {A} (m : M A) : sends_at_most_once m → sends_at_most_once (dispatch m).
Proof. intros H st. exact (H st). Qed.

Lemma click_elem_once r : sends_at_most_once (click_elem r).
Proof.
  unfold click_elem. apply silent_then; [intros s; keeps|]. intros e.
  destruct (e ≫= on_click) as [i|]; [|apply silent_sends_at_most_once; intros s; keeps].
  apply dispatch_once. apply silent_then; [intros s; keeps|]. intros name.
  apply select_username_once.
Qed.

Lemma confirmSelect_once enter_pressed : sends_at_most_once (confirmSelect enter_pressed).
Proof.
  unfold confirmSelect. apply silent_then; [intros s; apply input_blur_unsent|]. intros _.
  destruct enter_pressed.
  - apply silent_then; [intros s; apply console_log_unsent|]. intros _.
    apply silent_then; [intros s; keeps|]. intros v. apply select_username_once.
  - apply silent_then; [intros s; keeps|]. intros [c|].
    + apply silent_then; [intros s; keeps|]. intros opts.
      destruct (js_index opts (Some c)); [apply click_elem_once|].
      apply silent_sends_at_most_once. intros s. keeps.
    + apply silent_sends_at_most_once. intros s. apply close_popup_unsent.
Qed.

Lemma input_keydown_once ev : sends_at_most_once (input_keydown ev).
Proof.
  unfold input_keydown. apply silent_then; [intros s; apply set_old_username_unsent|].
  intros _.
  repeat match goal with
         | |- sends_at_most_once (if ?b then _ else _) => destruct b
         end.
  - apply silent_sends_at_most_once. intros s.
    apply preserved_bind; [apply selectNext_unsent | intros ?; apply preserved_ret].
  - apply silent_sends_at_most_once. intros s.
    apply preserved_bind; [apply selectPrev_unsent | intros ?; apply preserved_ret].
  - apply silent_sends_at_most_once. intros s.
    apply preserved_bind; [|intros ?; apply preserved_ret].
    destruct (shiftKey ev); [apply selectPrev_unsent | apply selectNext_unsent].
  - apply then_silent; [apply confirmSelect_once|]. intros _ s. apply preserved_ret.
  - apply silent_sends_at_most_once. intros s.
    apply preserved_bind; [apply close_popup_unsent | intros ?; apply preserved_ret].
  - apply silent_sends_at_most_once. intros s. apply preserved_ret.
Qed.

Lemma ask_suggestions_once : sends_at_most_once ask_suggestions.
Proof.
  unfold ask_suggestions. apply silent_then; [intros s; keeps|]. intros v.
  apply socket_send_once.
Qed.

Lemma then_dispatch_silent {A B} (m : M A) (k : M B) :
  sends_at_most_once m → silent k → sends_at_most_once (dispatch m ;; dispatch k).
Proof.
  intros Hm Hk. apply then_silent; [now apply dispatch_once|].
  intros _ s. apply preserved_dispatch, Hk.
Qed.

(** X13.  Whatever the state, an event makes the page send one message
    at most, and nothing sent before is taken back. *)
Theorem each_event_sends_at_most_once e st :
  sent (handle e st) = sent st ∨ ∃ msg, sent (handle e st) = sent st ++ [msg].
Proof.
  destruct e as [now f|target|k shift|text|n|target|target|k shift|to]; cbn [handle].
  - left. exact (proj1 (on_message_quiet (sent st) (active st) now f st
                          (conj eq_refl (or_introl eq_refl)))).
  - apply (then_dispatch_silent input_click (document_click target)).
    + unfold input_click. apply silent_then; [intros s; apply set_old_username_unsent|].
      intros _. apply ask_suggestions_once.
    + intros s. apply document_click_unsent.
  - unfold keydown_in_input. pose proof (input_keydown_once (keypress k shift) st) as H1.
    destruct (input_keydown (keypress k shift) st) as [st1 [ev1|e1]]; cbn [fst] in H1.
    + destruct (propagation_stopped ev1); [exact H1|].
      pose proof (document_keydown_unsent (sent st1) ev1 st1 eq_refl) as H2.
      destruct (document_keydown ev1 st1) as [st2 [ev2|e2]]; cbn [fst] in *;
        unfold unsent in H2; now rewrite H2.
    + pose proof (document_keydown_unsent (sent st1) (keypress k shift) st1 eq_refl) as H2.
      destruct (document_keydown (keypress k shift) st1) as [st2 [ev2|e2]]; cbn [fst] in *;
        unfold unsent in H2; now rewrite H2.
  - exact (ask_suggestions_once (with_input_selected false (with_input_value text st))).
  - destruct (popup_children st !! n); [apply click_elem_once | now left].
  - apply (then_dispatch_silent reset_button_click (document_click target)).
    + unfold reset_button_click.
      apply silent_then; [intros s; apply close_popup_unsent|]. intros _.
      apply silent_then; [intros s; apply set_main_innerHTML_unsent|]. intros _.
      apply silent_then; [intros s; keeps|]. intros _.
      apply socket_send_once.
    + intros s. apply document_click_unsent.
  - left. exact (document_click_unsent (sent st) target st eq_refl).
  - left. exact (document_keydown_unsent (sent st) (keypress k shift) st eq_refl).
  - left. now destruct (focusable to st).
Qed.

(** ** On every run *)

Lemma select_username_str_completion v st :
  snd (select_username (JStr v) st) =
    if negb (strict_eq_old (JStr v) (old_username st)) && negb (main_exists st)
    then Throw TypeError else Normal tt.
Proof.
  destruct (strict_eq_old (JStr v) (old_username st)) eqn:E.
  - now rewrite select_username_same.
  - destruct (main_exists st) eqn:Hm.
    + now rewrite (select_username_commit _ v).
    + now rewrite select_username_without_main.
Qed.

Lemma Enter_completion ev st :
  key ev = "Enter" →
  snd (input_keydown ev st) =
    if text_changed st && negb (main_exists st) then Throw TypeError else Normal ev.
Proof.
  intros Hkey. unfold input_keydown. cbv [mbind M_bind mret M_ret]. rewrite Hkey.
  cbn [String.eqb Ascii.eqb Bool.eqb]. rewrite set_old_username_run, confirmSelect_forced.
  set (started := match old_username st with None => _ | Some _ => st end).
  pose proof (select_username_str_completion (input_value started)
                (with_console (console started ++ [Log "force-select" []])
                   (blurred started))) as Hsel.
  destruct (blurred_fields started) as (_ & _ & Hb_old & _).
  revert Hsel. fields. rewrite Hb_old, blurred_main_exists.
  assert (main_exists started = main_exists st) as -> by (subst started; now destruct (old_username st)).
  assert (negb (strict_eq_old (JStr (input_value started)) (old_username started))
          = text_changed st) as ->.
  { subst started. unfold text_changed. destruct (old_username st) as [o|] eqn:Hold; fields.
    - now rewrite Hold.
    - cbn [strict_eq_old]. now rewrite String.eqb_refl. }
  destruct (select_username _ _) as [st1 [[]|e]]; cbn [snd]; intros Hsel;
    destruct (text_changed st && negb (main_exists st)); congruence.
Qed.

Lemma input_keydown_completion ev st :
  highlight_valid st →
  if String.eqb (key ev) "Enter" && text_changed st && negb (main_exists st)
  then snd (input_keydown ev st) = Throw TypeError
  else ∃ ev', snd (input_keydown ev st) = Normal ev'.
Proof.
  intros Hv.
  destruct (String.eqb (key ev) "Enter") eqn:HE.
  { apply String.eqb_eq in HE. rewrite (Enter_completion ev st HE). cbn [andb].
    destruct (text_changed st && negb (main_exists st)); eauto. }
  cbn [andb].
  pose proof (selectNext_completes _ (set_old_username_highlight st Hv)) as Hn.
  pose proof (selectPrev_completes _ (set_old_username_highlight st Hv)) as Hp.
  unfold input_keydown. cbv [mbind M_bind mret M_ret].
  assert (set_old_username st = (exec set_old_username st, Normal tt)) as ->
    by (unfold exec; now rewrite set_old_username_run).
  rewrite HE.
  repeat match goal with
         | |- context [if String.eqb ?a ?b then _ else _] => destruct (String.eqb a b)
         end.
  - rewrite Hn. eauto.
  - rewrite Hp. eauto.
  - destruct (shiftKey ev); [rewrite Hp | rewrite Hn]; eauto.
  - rewrite close_popup_true. eauto.
  - eauto.
Qed.

(** X14.  After any events whatever, malformed frames included, the
    highlight is [null] or an index into the option array, and the input's
    keydown listener, on the open socket, ends by an exception in one case
    only: Enter on a text that differs from the snapshot held once [#main]
    is gone, a TypeError.  On every other key and page it completes. *)
Theorem highlight_valid_and_keydown_throws_only_without_main parser shown events :
  let st := run events (initial parser shown) in
  highlight_valid st
  ∧ ∀ ev, if String.eqb (key ev) "Enter" && text_changed st && negb (main_exists st)
          then snd (input_keydown ev st) = Throw TypeError
          else ∃ ev', snd (input_keydown ev st) = Normal ev'.
Proof.
  intros st. pose proof (run_wellformed events _ (initial_wellformed parser shown)) as (Hv & _).
  split; [exact Hv|]. intros ev. now apply input_keydown_completion.
Qed.

(** X15.  After any events whatever, the popup's children are the first
    elements of the option array, in the same order -- the very elements
    the arrow keys mark -- and a hidden popup has no child. *)
Theorem popup_shows_leading_options parser shown events :
  let st := run events (initial parser shown) in
  popup_children st `prefix_of` available_options st
  ∧ shown_options st `prefix_of` options st
  ∧ (popup_open st = false → shown_options st = []).
Proof.
  intros st.
  pose proof (run_wellformed events _ (initial_wellformed parser shown)) as (_ & _ & _ & Hpre & Hhid).
  fold st in Hpre, Hhid. split; [exact Hpre|]. unfold shown_options, options. split.
  - destruct Hpre as [k Hk]. rewrite Hk, fmap_app. now apply prefix_app_r.
  - intros Hclosed. now rewrite (Hhid Hclosed).
Qed.

(** X16.  After any events whatever, every option is an element whose
    [ariaSelected] is "true" if it is the highlighted one and "false" if
    not: never two options marked, never the highlight unmarked. *)
Theorem highlighted_option_is_the_marked_one parser shown events i :
  let st := run events (initial parser shown) in
  (i < length (available_options st))%nat →
  ∃ e, options st !! i = Some (Some e)
       ∧ ariaSelected e = Some (if bool_decide (current_option st = Some (Z.of_nat i))
                                then "true" else "false").
Proof.
  intros st Hi.
  pose proof (run_wellformed events _ (initial_wellformed parser shown)) as (_ & _ & Hm & _).
  fold st in Hm. destruct (lookup_lt_is_Some_2 _ _ Hi) as [r Hr].
  destruct (Hm i r Hr) as (e & He & Hmark). exists e. split; [|exact Hmark].
  unfold options. now rewrite list_lookup_fmap, Hr; cbn; rewrite He.
Qed.

(** ** Once [#main] is gone *)

Section Stuck.
Context (s : list outbound).

Lemma set_main_innerHTML_stuck html : preserved (stuck s) (set_main_innerHTML html).
Proof.
  intros st [Hm Hq]. rewrite set_main_innerHTML_gone by exact Hm. exact (conj Hm Hq).
Qed.

Lemma set_main_outerHTML_stuck v : preserved (stuck s) (set_main_outerHTML v).
Proof.
  intros st [Hm Hq]. unfold set_main_outerHTML. mstep. rewrite Hm. exact (conj Hm Hq).
Qed.

Lemma createElement_li_stuck : preserved (stuck s) createElement_li.
Proof. intros st H. exact H. Qed.

Lemma console_log_stuck text args : preserved (stuck s) (console_log text args).
Proof. unfold console_log. keeps. Qed.

Lemma on_elem_stuck r f : preserved (stuck s) (on_elem r f).
Proof. unfold on_elem. keeps. Qed.

Lemma set_input_value_stuck v : preserved (stuck s) (set_input_value v).
Proof.
  unfold set_input_value. apply preserved_update. intros st H.
  destruct (String.eqb v (input_value st)); exact H.
Qed.

Lemma input_blur_stuck : preserved (stuck s) input_blur.
Proof.
  unfold input_blur. apply preserved_update. intros st H. destruct (active st); exact H.
Qed.

#[local] Hint Resolve set_main_innerHTML_stuck set_main_outerHTML_stuck
  createElement_li_stuck console_log_stuck on_elem_stuck set_input_value_stuck
  input_blur_stuck : keeps.

Lemma close_popup_stuck reset : preserved (stuck s) (close_popup reset).
Proof. unfold close_popup. keeps. Qed.

Lemma set_old_username_stuck : preserved (stuck s) set_old_username.
Proof. unfold set_old_username. keeps. Qed.

Lemma selectNext_stuck : preserved (stuck s) selectNext.
Proof. unfold selectNext, changeSelection. keeps. Qed.

Lemma selectPrev_stuck : preserved (stuck s) selectPrev.
Proof. unfold selectPrev, changeSelection. keeps. Qed.

Lemma ask_suggestions_stuck : preserved (stuck s) ask_suggestions.
Proof.
  intros st [Hm (queries & Hq)]. unfold ask_suggestions. mstep.
  split; [exact Hm|]. exists (queries ++ [input_value st]).
  now rewrite Hq, fmap_app, app_assoc.
Qed.

(** A commit sends nothing: either the name is the snapshot, or the commit
    ends where it clears [#main]. *)
Lemma select_username_stuck name : preserved (stuck s) (select_username name).
Proof.
  intros st [Hm Hq]. destruct (strict_eq_old name (old_username st)) eqn:E.
  - rewrite select_username_same by exact E. exact (conj Hm Hq).
  - rewrite select_username_without_main by done. exact (conj Hm Hq).
Qed.

#[local] Hint Resolve close_popup_stuck set_old_username_stuck selectNext_stuck
  selectPrev_stuck ask_suggestions_stuck select_username_stuck : keeps.

Lemma set_username_stuck name : preserved (stuck s) (set_username name).
Proof. unfold set_username. keeps. Qed.

Lemma reset_button_click_stuck : preserved (stuck s) reset_button_click.
Proof.
  intros st H. unfold reset_button_click. cbv [mbind M_bind].
  pose proof (close_popup_stuck false st H) as H1.
  destruct (close_popup false st) as [st1 [[]|e]]; cbn [fst] in H1; [|exact H1].
  rewrite set_main_innerHTML_gone by apply H1. exact H1.
Qed.

Lemma click_elem_stuck r : preserved (stuck s) (click_elem r).
Proof. unfold click_elem. keeps. Qed.

Lemma add_suggestion_stuck i : preserved (stuck s) (add_suggestion i).
Proof. unfold add_suggestion. keeps. Qed.

#[local] Hint Resolve set_username_stuck reset_button_click_stuck click_elem_stuck
  add_suggestion_stuck : keeps.

Lemma confirmSelect_stuck enter_pressed : preserved (stuck s) (confirmSelect enter_pressed).
Proof. unfold confirmSelect. keeps. Qed.

Lemma apply_username_suggestions_stuck v :
  preserved (stuck s) (apply_username_suggestions v).
Proof. unfold apply_username_suggestions. keeps. Qed.

#[local] Hint Resolve confirmSelect_stuck apply_username_suggestions_stuck : keeps.

Lemma input_keydown_stuck ev : preserved (stuck s) (input_keydown ev).
Proof. unfold input_keydown. keeps. Qed.

Lemma document_keydown_stuck ev : preserved (stuck s) (document_keydown ev).
Proof. unfold document_keydown, input_focus, input_select. keeps. Qed.

Lemma document_click_stuck target : preserved (stuck s) (document_click target).
Proof. unfold document_click. keeps. Qed.

Lemma input_click_stuck : preserved (stuck s) input_click.
Proof. unfold input_click. keeps. Qed.

Lemma on_message_stuck now f : preserved (stuck s) (on_message now f).
Proof. unfold on_message, update_last_refreshed. keeps. Qed.

#[local] Hint Resolve input_keydown_stuck document_keydown_stuck document_click_stuck
  input_click_stuck on_message_stuck : keeps.

Lemma handle_stuck e st : stuck s st → stuck s (handle e st).
Proof.
  intros H. destruct e as [now f|target|k shift|text|n|target|target|k shift|to];
    cbn [handle].
  - now apply on_message_stuck.
  - revert st H. change (preserved (stuck s)
      (dispatch input_click ;; dispatch (document_click target))). keeps.
  - unfold keydown_in_input.
    pose proof (input_keydown_stuck (keypress k shift) st H) as H1.
    destruct (input_keydown (keypress k shift) st) as [st1 [ev1|e1]]; cbn [fst] in H1.
    + destruct (propagation_stopped ev1); [exact H1|].
      pose proof (document_keydown_stuck ev1 st1 H1) as H2.
      now destruct (document_keydown ev1 st1) as [st2 [ev2|e2]].
    + pose proof (document_keydown_stuck (keypress k shift) st1 H1) as H2.
      now destruct (document_keydown (keypress k shift) st1) as [st2 [ev2|e2]].
  - apply (ask_suggestions_stuck (with_input_selected false (with_input_value text st))).
    exact H.
  - destruct (popup_children st !! n); [now apply click_elem_stuck | exact H].
  - revert st H. change (preserved (stuck s)
      (dispatch reset_button_click ;; dispatch (document_click target))). keeps.
  - now apply document_click_stuck.
  - now apply document_keydown_stuck.
  - destruct (focusable to st); exact H.
Qed.

Lemma run_stuck events st : stuck s st → stuck s (run events st).
Proof.
  revert st. induction events as [|e events IH]; intros st H; [exact H|].
  cbn [run foldl]. apply IH, handle_stuck, H.
Qed.
End Stuck.

(** X17.  Once a fragment without [#main] has taken the element away,
    nothing brings it back: after any events whatever the lookup of [#main]
    still gives [null], and all the page has sent since are queries for
    suggestions -- no [UsernameSelect] and no [ResetUsername] any more. *)
Theorem lost_main_stays_lost events st :
  main_exists st = false →
  main_exists (run events st) = false
  ∧ ∃ queries, sent (run events st) = sent st ++ (OutUsernameSuggestions <$> queries).
Proof.
  intros Hm. apply (run_stuck (sent st)). split; [exact Hm|].
  exists []. now rewrite app_nil_r.
Qed.

(** ** Instances *)

Lemma click_is_inside_iff_combobox_among_ten_witness :
  (∃ i t, (i < 10)%nat ∧ input_in_form !! i = Some t ∧ is_combobox_node t = true)
  ∧ document_click input_in_form typing_al = (typing_al, Normal tt)
  ∧ (∀ i t, (i < 10)%nat → deep_in_form !! i = Some t → is_combobox_node t = false)
  ∧ document_click deep_in_form typing_al = close_popup true typing_al.
Proof.
  assert (∃ i t, (i < 10)%nat ∧ input_in_form !! i = Some t ∧ is_combobox_node t = true)
    as Hin.
  { exists 1%nat, {| node_id := Some "change-username"; node_classList := Some [] |}.
    split; [lia|]. split; reflexivity. }
  assert (∀ i t, (i < 10)%nat → deep_in_form !! i = Some t → is_combobox_node t = false)
    as Hout.
  { intros i t Hi Hl.
    do 10 (destruct i as [|i]; [vm_compute in Hl; injection Hl as Ht; subst t; reflexivity|]). lia. }
  split; [exact Hin|]. split.
  { exact (proj1 (click_is_inside_iff_combobox_among_ten input_in_form typing_al) Hin). }
  split; [exact Hout|].
  exact (proj2 (click_is_inside_iff_combobox_among_ten deep_in_form typing_al) Hout).
Defined.

Lemma click_outside_restores_snapshot_witness :
  within_combobox 10 [] = false
  ∧ input_value (handle (OtherClick []) typing_al)
    = default (input_value typing_al) (old_username typing_al)
  ∧ old_username (handle (OtherClick []) typing_al) = None.
Proof.
  split; [reflexivity|].
  destruct (click_outside_restores_snapshot [] typing_al eq_refl) as (Hin & Hold & _).
  exact (conj Hin Hold).
Defined.

Lemma input_click_opens_session_witness :
  within_combobox 10 input_in_form = true
  ∧ old_username (handle (InputClick input_in_form) (initial sample_parser "alice"))
    = Some (default (input_value (initial sample_parser "alice")) (old_username (initial sample_parser "alice")))
  ∧ within_combobox 10 deep_in_form = false
  ∧ old_username (handle (InputClick deep_in_form) (initial sample_parser "alice")) = None.
Proof.
  split; [reflexivity|]. split.
  { exact (proj1 (proj1 (proj2 (input_click_opens_session input_in_form (initial sample_parser "alice")))
                    eq_refl)). }
  split; [reflexivity|].
  exact (proj1 (proj2 (proj2 (input_click_opens_session deep_in_form (initial sample_parser "alice")))
                  eq_refl)).
Defined.

Lemma typing_keeps_first_snapshot_witness :
  [("Backspace", "alic"); ("e", "alice"); ("x", "alicex")] ≠ []
  ∧ Forall (λ stroke : string * string, plain_key (fst stroke) = true)
      [("Backspace", "alic"); ("e", "alice"); ("x", "alicex")]
  ∧ old_username (run (typing [("Backspace", "alic"); ("e", "alice"); ("x", "alicex")])
                    (initial sample_parser "alice"))
    = Some (default (input_value (initial sample_parser "alice")) (old_username (initial sample_parser "alice"))).
Proof.
  assert (Forall (λ stroke : string * string, plain_key (fst stroke) = true)
            [("Backspace", "alic"); ("e", "alice"); ("x", "alicex")]) as Hplain
    by (repeat constructor).
  assert ([("Backspace", "alic"); ("e", "alice"); ("x", "alicex")] ≠ []) as Hne
    by discriminate.
  split; [exact Hne|]. split; [exact Hplain|].
  exact (proj1 (typing_keeps_first_snapshot _ (initial sample_parser "alice") Hne Hplain)).
Defined.

Lemma navigation_keys_witness :
  highlight_valid highlighted_bob
  ∧ keydown_in_input (keypress "Tab" false) highlighted_bob
    = (exec selectNext (exec set_old_username highlighted_bob),
       preventDefault (stopImmediatePropagation (keypress "Tab" false))).
Proof.
  assert (highlight_valid highlighted_bob) as Hv
    by (vm_compute; split; [discriminate | reflexivity]).
  split; [exact Hv|].
  exact (proj1 (proj2 (proj2 (navigation_keys highlighted_bob Hv)))).
Defined.

Lemma click_on_nth_option_selects_nth_suggestion_witness :
  [alice; bob] !! 1%nat = Some bob
  ∧ old_username typing_al ≠ Some (name bob)
  ∧ sent (handle (OptionClick 1)
            (handle (Message "09:02" (UsernameSuggestions [alice; bob])) typing_al))
    = sent typing_al ++ [OutUsernameSelect (JStr (name bob))].
Proof.
  assert (old_username typing_al ≠ Some (name bob)) as Hold by (vm_compute; discriminate).
  split; [reflexivity|]. split; [exact Hold|].
  exact (proj1 (click_on_nth_option_selects_nth_suggestion "09:02" [alice; bob] 1 bob
                  typing_al eq_refl Hold)).
Defined.

Lemma suggestions_of_wrong_type_witness :
  (own_prop "suggestions" [] = None ∨ own_prop "suggestions" [] = Some JNull)
  ∧ on_message "09:00" (keyed "UsernameSuggestions" []) offered_alice
    = (offered_alice, Throw TypeError)
  ∧ own_prop "suggestions" [("suggestions", JNum 3)] = Some (JNum 3)
  ∧ scalar (JNum 3) = true
  ∧ ∃ st', on_message "09:00" (keyed "UsernameSuggestions" [("suggestions", JNum 3)])
             offered_alice = (st', Throw TypeError)
           ∧ popup_open st' = true
           ∧ options st' = [].
Proof.
  split; [left; reflexivity|]. split.
  { apply (proj1 (suggestions_of_wrong_type "09:00" offered_alice [])). left. reflexivity. }
  split; [reflexivity|]. split; [reflexivity|].
  destruct (proj2 (suggestions_of_wrong_type "09:00" offered_alice [("suggestions", JNum 3)])
              (JNum 3) eq_refl eq_refl) as (st' & Hrun & Hopen & _ & Hopt & _).
  exists st'. exact (conj Hrun (conj Hopen Hopt)).
Defined.

Lemma missing_fields_read_as_undefined_witness :
  own_prop "new_name" [] = None
  ∧ main_exists offered_alice = true
  ∧ on_message "09:00" (keyed "SetUsername" []) offered_alice
    = (exec (on_message "09:00" (SetUsername "undefined")) offered_alice, Normal tt).
Proof.
  split; [reflexivity|]. split; [reflexivity|].
  exact (proj2 (proj2 (missing_fields_read_as_undefined "09:00" offered_alice []) eq_refl)
           eq_refl).
Defined.

Lemma highlighted_option_is_the_marked_one_witness :
  (1 < length (available_options
                 (run [Message "09:00" (UsernameSuggestions [alice; bob]);
                       InputKeydown "ArrowUp" false] (initial sample_parser "alice"))))%nat
  ∧ ∃ e, options (run [Message "09:00" (UsernameSuggestions [alice; bob]);
                       InputKeydown "ArrowUp" false] (initial sample_parser "alice")) !! 1%nat
         = Some (Some e).
Proof.
  assert (1 < length (available_options
                        (run [Message "09:00" (UsernameSuggestions [alice; bob]);
                              InputKeydown "ArrowUp" false] (initial sample_parser "alice"))))%nat as Hlt
    by (vm_compute; repeat constructor).
  split; [exact Hlt|].
  destruct (highlighted_option_is_the_marked_one sample_parser "alice"
              [Message "09:00" (UsernameSuggestions [alice; bob]);
               InputKeydown "ArrowUp" false] 1%nat Hlt) as (e & He & _).
  exists e. exact He.
Defined.

Lemma lost_main_stays_lost_witness :
  main_exists typing_al_without_main = false
  ∧ main_exists (run [Message "09:04" (UpdatePage "<main id='main'></main>");
                      InputKeydown "Enter" false;
                      ResetClick []] typing_al_without_main) = false
  ∧ ∃ queries,
      sent (run [Message "09:04" (UpdatePage "<main id='main'></main>");
                 InputKeydown "Enter" false;
                 ResetClick []] typing_al_without_main)
      = sent typing_al_without_main ++ (OutUsernameSuggestions <$> queries).
Proof.
  split; [reflexivity|].
  exact (lost_main_stays_lost
           [Message "09:04" (UpdatePage "<main id='main'></main>");
            InputKeydown "Enter" false; ResetClick []]
           typing_al_without_main eq_refl).
Defined.
